(** * EPUB thumbnail extractor: the cover resolver and its pipeline

    A shallow embedding of [scripts/extract_epub_thumbnail.py] together
    with the parts of the Python libraries whose behaviour decides what
    the script does:

    - [str] operations ([lower], [in], [replace]);
    - [xml.etree.ElementPath]: the path tokenizer, the selector
      compiler and the evaluation of the selectors the script can build;
    - [pathlib.PurePosixPath]: parsing, [/], [parent], [name], [suffix],
      [str];
    - [zipfile.ZipFile.read] as a lookup in a finite map;
    - a file system as a finite map from path strings to nodes.

    Python strings are modelled as Rocq strings, one [ascii] per code
    point: the model covers the code points below 256, on which every
    function below agrees with CPython 3.11.

    What is left out: the bytes of archive members (a member is what
    decoding, parsing and [Image.open] make of it), the pixels of an
    image and the size Pillow computes for a thumbnail (a parameter of
    [main]), permissions and failures of the operating system, and the
    ElementPath selectors that need the parent map, the text of an
    element or a nested search, which the script builds only from an
    id with a double quote in it. *)

From Stdlib Require Import String Ascii List ZArith Lia Bool DecimalString.
From stdpp Require Import base strings gmap.
Import ListNotations.

Set Warnings "-register-all".

Local Open Scope string_scope.
Local Open Scope list_scope.
Local Open Scope Z_scope.
Local Open Scope nat_scope.

(** ** Python strings *)

Module PyStr.

(** The double quote, the backslash and the apostrophe, as characters. *)
Definition DQ : ascii := "034"%char.
Definition SQ : ascii := "039"%char.
Definition BS : ascii := "092"%char.

Definition chr (c : ascii) : string := String c EmptyString.

(** [c in s] for a one-character [c]. *)
Fixpoint mem (c : ascii) (s : string) : bool :=
  match s with
  | EmptyString => false
  | String d r => Ascii.eqb c d || mem c r
  end.

(** [s.startswith(p)] *)
Fixpoint startswith (p s : string) : bool :=
  match p, s with
  | EmptyString, _ => true
  | String a p', String b s' => Ascii.eqb a b && startswith p' s'
  | String _ _, EmptyString => false
  end.

(** [s.endswith(suffix)] *)
Fixpoint endswith (suffix s : string) : bool :=
  String.eqb suffix s ||
  match s with
  | EmptyString => false
  | String _ r => endswith suffix r
  end.

(** [needle in hay] *)
Fixpoint contains (needle hay : string) : bool :=
  startswith needle hay ||
  match hay with
  | EmptyString => false
  | String _ r => contains needle r
  end.

(** [str.lower] on one code point below 256: A-Z and the Latin-1
    capitals (192-222 except the multiplication sign 215) move up by
    32; everything else is unchanged. *)
Definition lower_char (c : ascii) : ascii :=
  let n := nat_of_ascii c in
  if ((65 <=? n) && (n <=? 90)) || ((192 <=? n) && (n <=? 222) && negb (n =? 215))
  then ascii_of_nat (n + 32) else c.

Fixpoint lower (s : string) : string :=
  match s with
  | EmptyString => EmptyString
  | String c r => String (lower_char c) (lower r)
  end.

(** [s.replace(old, new)] for one-character [old] and [new]. *)
Fixpoint replace (old new : ascii) (s : string) : string :=
  match s with
  | EmptyString => EmptyString
  | String c r => String (if Ascii.eqb c old then new else c) (replace old new r)
  end.

(** [s[n:]] *)
Fixpoint drop (n : nat) (s : string) : string :=
  match n, s with
  | O, _ => s
  | S k, String _ r => drop k r
  | S _, EmptyString => EmptyString
  end.

(** The longest prefix of [s] whose characters satisfy [p]. *)
Fixpoint take_while (p : ascii -> bool) (s : string) : string :=
  match s with
  | EmptyString => EmptyString
  | String c r => if p c then String c (take_while p r) else EmptyString
  end.

Definition nonempty (s : string) : bool :=
  match s with EmptyString => false | _ => true end.

(** [sep.join(l)] for a one-character separator. *)
Fixpoint join (sep : ascii) (l : list string) : string :=
  match l with
  | [] => EmptyString
  | [x] => x
  | x :: l' => x +:+ String sep (join sep l')
  end.

(** [s.split(sep)] for a one-character separator: never empty. *)
Fixpoint split (sep : ascii) (s : string) : list string :=
  match s with
  | EmptyString => [EmptyString]
  | String c r =>
      if Ascii.eqb c sep then EmptyString :: split sep r
      else match split sep r with
           | x :: l => String c x :: l
           | [] => [chr c]
           end
  end.

(** [s.rfind(c)] for a one-character [c]: the last index of [c]. *)
Fixpoint rfind (c : ascii) (s : string) : option nat :=
  match s with
  | EmptyString => None
  | String d r =>
      match rfind c r with
      | Some i => Some (S i)
      | None => if Ascii.eqb d c then Some O else None
      end
  end.

End PyStr.

(** ** xml.etree.ElementTree elements *)

Module ET.

(** An element as [ET.fromstring] builds it (no comments and no
    processing instructions: the default parser drops them). [tag] is
    in Clark notation, [{uri}local]. *)
Inductive element : Type :=
  Element { tag : string; attrib : list (string * string); children : list element }.

(** [elem.get(key)]: [None] when the attribute is absent. *)
Fixpoint lookup_attr (key : string) (l : list (string * string)) : option string :=
  match l with
  | [] => None
  | (k, v) :: l' => if String.eqb k key then Some v else lookup_attr key l'
  end.

Definition get (e : element) (key : string) : option string :=
  lookup_attr key (attrib e).

(** [elem.get(key, default)] *)
Definition get_default (e : element) (key default : string) : string :=
  match get e key with Some v => v | None => default end.

(** [elem.iter()]: the element, then its subtree in document order. *)
Fixpoint iter (e : element) : list element :=
  e :: flat_map iter (children e).

(** What [for e in elem.iter(): if e is not elem] keeps. *)
Definition descendants (e : element) : list element :=
  flat_map iter (children e).

End ET.

(** ** Exceptions and results *)

Module Py.

(** The exception classes the script can meet. [ParseError] is a
    subclass of [SyntaxError] in [xml.etree.ElementTree], not the other
    way round. *)
Inductive exn_class : Type :=
| SyntaxError | ParseError | KeyError | TypeError | UnicodeDecodeError
| BadZipFile | UnidentifiedImageError | IsADirectoryError | FileExistsError
| FileNotFoundError.

(** A raised exception: its class and the text [str(e)] is built from. *)
Record exn : Type := Exn { cls : exn_class; detail : string }.

(** [isinstance(e, c)] for the classes named in [except] clauses. *)
Definition isinstance (e : exn) (c : exn_class) : bool :=
  match c, cls e with
  | SyntaxError, (SyntaxError | ParseError) => true
  | ParseError, ParseError => true
  | KeyError, KeyError => true
  | TypeError, TypeError => true
  | UnicodeDecodeError, UnicodeDecodeError => true
  | BadZipFile, BadZipFile => true
  | UnidentifiedImageError, UnidentifiedImageError => true
  | IsADirectoryError, IsADirectoryError => true
  | FileExistsError, FileExistsError => true
  | FileNotFoundError, FileNotFoundError => true
  | _, _ => false
  end.

(** The outcome of a call: a value, an exception, or [NotModelled]
    when the call leaves the modelled part of a library (an ElementPath
    selector with [..], [[tag]], a text or a position predicate applied
    to a non-empty node list). No [except] clause catches
    [NotModelled]. *)
Inductive result (A : Type) : Type :=
| Val (a : A)
| Raise (e : exn)
| NotModelled.
Arguments Val {A} a.
Arguments Raise {A} e.
Arguments NotModelled {A}.

Definition bind {A B : Type} (r : result A) (k : A -> result B) : result B :=
  match r with
  | Val a => k a
  | Raise e => Raise e
  | NotModelled => NotModelled
  end.

Definition raise {A : Type} (c : exn_class) (msg : string) : result A :=
  Raise (Exn c msg).

(** A result that no [except ET.ParseError] clause would catch. *)
Definition not_parse_error {A : Type} (r : result A) : Prop :=
  forall e, r = Raise e -> isinstance e ParseError = false.

End Py.

(** ** xml.etree.ElementPath *)

Module ElementPath.
Import PyStr ET Py.

(** A token is the pair [(ttype, tag)] that [xpath_tokenizer_re.findall]
    returns: group 1 (an operator or a quoted string) and group 2 (a
    name). A run of white space gives [("", "")]. *)
Definition token : Type := string * string.

(** [\s] on code points below 256. *)
Definition re_space (c : ascii) : bool :=
  let n := nat_of_ascii c in
  ((9 <=? n) && (n <=? 13)) || ((28 <=? n) && (n <=? 32)) || (n =? 133) || (n =? 160).

(** The class [[^/\[\]\(\)@!=\s]] of group 2. *)
Definition tag_char (c : ascii) : bool :=
  negb (mem c "/[]()@!=") && negb (re_space c).

(** [q[^q]*q] with the opening quote already read: the body, when a
    closing quote exists. *)
Fixpoint quoted (q : ascii) (r : string) : option string :=
  match r with
  | EmptyString => None
  | String c r' =>
      if Ascii.eqb c q then Some EmptyString
      else match quoted q r' with
           | Some body => Some (String c body)
           | None => None
           end
  end.

(** Group 2, [(?:\{[^}]+\})?[^/\[\]\(\)@!=\s]+], at the head of [s]:
    first with the braced prefix, then without it. *)
Definition name_token (s : string) : option string :=
  let plain := take_while tag_char s in
  let without := if nonempty plain then Some plain else None in
  match s with
  | String "{" r =>
      match quoted "}" r with
      | Some body =>
          let run := take_while tag_char (drop (S (String.length body)) r) in
          if nonempty body && nonempty run
          then Some (String "{" body +:+ String "}" run)
          else without
      | None => without
      end
  | _ => without
  end.

(** The alternatives of [xpath_tokenizer_re] in their order, at the
    head [String c r]: the token and the number of characters it
    covers after the first. [None]: no alternative matches here and
    [findall] moves on by one character. *)
Definition next_token (c : ascii) (r : string) : option (token * nat) :=
  let name :=
    match name_token (String c r) with
    | Some t => Some ((EmptyString, t), pred (String.length t))
    | None =>
        if re_space c
        then Some ((EmptyString, EmptyString), String.length (take_while re_space r))
        else None
    end in
  let single := Some ((chr c, EmptyString), O) in
  let double (d : ascii) (otherwise : option (token * nat)) :=
    match r with
    | String d' _ =>
        if Ascii.eqb d d' then Some ((String c (chr d), EmptyString), 1) else otherwise
    | EmptyString => otherwise
    end in
  if Ascii.eqb c SQ || Ascii.eqb c DQ then
    match quoted c r with
    | Some body =>
        Some ((String c body +:+ chr c, EmptyString), S (String.length body))
    | None => name
    end
  else if Ascii.eqb c ":" then double ":"%char single
  else if Ascii.eqb c "/" then double "/"%char single
  else if Ascii.eqb c "." then double "."%char single
  else if Ascii.eqb c "(" then double ")"%char single
  else if Ascii.eqb c "!" then double "="%char name
  else if mem c "*[]()@=" then single
  else name.

(** [xpath_tokenizer_re.findall(pattern)]; [skip] characters of the
    last token are still to be passed over. *)
Fixpoint scan (s : string) (skip : nat) : list token :=
  match s with
  | EmptyString => []
  | String c r =>
      match skip with
      | S k => scan r k
      | O =>
          match next_token c r with
          | Some (tok, more) => tok :: scan r more
          | None => scan r O
          end
      end
  end.

Definition findall_tokens (pattern : string) : list token := scan pattern O.

(** [namespaces]: the prefix map passed to [find] and [findall];
    [None] when the argument is omitted. *)
Definition nsmap : Type := option (list (string * string)).

Definition ns_get (ns : nsmap) (prefix : string) : option string :=
  match ns with
  | Some l => lookup_attr prefix l
  | None => None
  end.

(** [tag.split(":", 1)] when [":" in tag]. *)
Fixpoint split_colon (tag : string) : option (string * string) :=
  match tag with
  | EmptyString => None
  | String c r =>
      if Ascii.eqb c ":" then Some (EmptyString, r)
      else match split_colon r with
           | Some (p, u) => Some (String c p, u)
           | None => None
           end
  end.

Definition clark (uri name : string) : string :=
  String "{" uri +:+ String "}" name.

(** [xpath_tokenizer(pattern, namespaces)]: a generator, so a prefix
    that is not in the map raises only when its token is asked for. *)
Fixpoint resolve_prefixes (ns : nsmap) (parsing_attribute : bool) (l : list token)
  : list (result token) :=
  match l with
  | [] => []
  | (ttype, tag) :: l' =>
      if nonempty tag && negb (startswith "{" tag) then
        (match split_colon tag with
         | Some (prefix, uri) =>
             match ns_get ns prefix with
             | Some full => Val (ttype, clark full uri)
             | None => raise SyntaxError ("prefix not found in prefix map: " +:+ prefix)
             end
         | None =>
             match ns_get ns EmptyString with
             | Some default =>
                 if nonempty default && negb parsing_attribute
                 then Val (ttype, clark default tag) else Val (ttype, tag)
             | None => Val (ttype, tag)
             end
         end) :: resolve_prefixes ns false l'
      else Val (ttype, tag) :: resolve_prefixes ns (String.eqb ttype "@") l'
  end.

Definition xpath_tokenizer (pattern : string) (ns : nsmap) : list (result token) :=
  resolve_prefixes ns false (findall_tokens pattern).

(** The selectors [prepare_child], [prepare_star], [prepare_self],
    [prepare_parent], [prepare_descendant] and [prepare_predicate]
    return. [sel_none]: the [None] that [prepare_descendant] and
    [prepare_predicate] return when the tokens run out. *)
Inductive selector : Type :=
| sel_child (tag : string)
| sel_star
| sel_self
| sel_parent
| sel_descendant (tag : string)
| sel_attr (key : string)
| sel_attr_eq (key value : string)
| sel_attr_ne (key value : string)
| sel_has_child (tag : string)
| sel_text_eq (tag value : string)
| sel_text_ne (tag value : string)
| sel_index (index : Z)
| sel_none.

Definition is_digit (c : ascii) : bool :=
  let n := nat_of_ascii c in (48 <=? n) && (n <=? 57).

Fixpoint all_chars (p : ascii -> bool) (s : string) : bool :=
  match s with
  | EmptyString => true
  | String c r => p c && all_chars p r
  end.

(** [re.match(r"\-?\d+$", s)] on a name token (it holds no newline). *)
Definition is_integer (s : string) : bool :=
  match s with
  | String "-" r => nonempty r && all_chars is_digit r
  | _ => nonempty s && all_chars is_digit s
  end.

(** The value of a run of decimal digits with single underscores
    between digits, as [int] reads it. *)
Fixpoint digits_value (s : string) (acc : Z) (after_digit : bool) : option Z :=
  match s with
  | EmptyString => if after_digit then Some acc else None
  | String c r =>
      if is_digit c
      then digits_value r (acc * 10 + Z.of_nat (nat_of_ascii c - 48))%Z true
      else if Ascii.eqb c "_" && after_digit
           then match r with
                | String d _ => if is_digit d then digits_value r acc false else None
                | EmptyString => None
                end
           else None
  end.

(** [int(s)] on a name token: [None] is [ValueError]. *)
Definition py_int (s : string) : option Z :=
  match s with
  | String "-" r => option_map Z.opp (digits_value r 0%Z false)
  | String "+" r => digits_value r 0%Z false
  | _ => digits_value s 0%Z false
  end.

(** [prepare_predicate] once the tokens up to the closing bracket are
    read: the dispatch on the signature. *)
Definition prepare_predicate (signature : string) (predicate : list string) : result selector :=
  let p0 := nth 0 predicate EmptyString in
  let p1 := nth 1 predicate EmptyString in
  let plast := List.last predicate EmptyString in
  let negated := contains "!=" signature in
  if String.eqb signature "@-" then Val (sel_attr p1)
  else if String.eqb signature "@-='" || String.eqb signature "@-!='" then
    Val (if negated then sel_attr_ne p1 plast else sel_attr_eq p1 plast)
  else if String.eqb signature "-" && negb (is_integer p0) then Val (sel_has_child p0)
  else if String.eqb signature ".='" || String.eqb signature ".!='"
          || ((String.eqb signature "-='" || String.eqb signature "-!='")
              && negb (is_integer p0)) then
    Val (if negated then sel_text_ne p0 plast else sel_text_eq p0 plast)
  else if String.eqb signature "-" || String.eqb signature "-()"
          || String.eqb signature "-()-" then
    if String.eqb signature "-" then
      match py_int p0 with
      | Some n =>
          if (n - 1 <? 0)%Z then raise SyntaxError "XPath position >= 1 expected"
          else Val (sel_index (n - 1))
      | None => raise SyntaxError "invalid predicate"
      end
    else if negb (String.eqb p0 "last") then raise SyntaxError "unsupported function"
    else if String.eqb signature "-()-" then
      match py_int (nth 2 predicate EmptyString) with
      | Some n =>
          if (-2 <? n - 1)%Z
          then raise SyntaxError "XPath offset from last() must be negative"
          else Val (sel_index (n - 1))
      | None => raise SyntaxError "unsupported expression"
      end
    else Val (sel_index (-1))
  else raise SyntaxError "invalid predicate".

(** Where the compiling loop of [iterfind] stands. *)
Inductive cstate : Type :=
| at_step (slash_ok : bool)  (* the next token starts a step *)
| in_descendant              (* after [//]: the next token is the tag *)
| in_predicate (signature : string) (predicate : list string).

(** The loop of [iterfind] that builds the selector list, token by
    token. [ops[token[0]]] raises [KeyError] on a token that starts no
    step. *)
Fixpoint compile_from (st : cstate) (l : list (result token)) (acc : list selector)
  : result (list selector) :=
  match l with
  | [] =>
      match st with
      | at_step _ => Val (rev acc)
      | in_descendant | in_predicate _ _ => Val (rev (sel_none :: acc))
      end
  | Raise e :: _ => Raise e
  | NotModelled :: _ => NotModelled
  | Val (ttype, tag) :: l' =>
      match st with
      | at_step slash_ok =>
          if slash_ok && String.eqb ttype "/" then compile_from (at_step false) l' acc
          else if String.eqb ttype EmptyString then
            compile_from (at_step true) l' (sel_child tag :: acc)
          else if String.eqb ttype "*" then compile_from (at_step true) l' (sel_star :: acc)
          else if String.eqb ttype "." then compile_from (at_step true) l' (sel_self :: acc)
          else if String.eqb ttype ".." then
            compile_from (at_step true) l' (sel_parent :: acc)
          else if String.eqb ttype "//" then compile_from in_descendant l' acc
          else if String.eqb ttype "[" then compile_from (in_predicate "" []) l' acc
          else raise KeyError ttype
      | in_descendant =>
          if String.eqb ttype "*" then
            compile_from (at_step true) l' (sel_descendant "*" :: acc)
          else if negb (nonempty ttype) then
            compile_from (at_step true) l' (sel_descendant tag :: acc)
          else raise SyntaxError "invalid descendant"
      | in_predicate signature predicate =>
          if String.eqb ttype "]" then
            match prepare_predicate signature predicate with
            | Val s => compile_from (at_step true) l' (s :: acc)
            | Raise e => Raise e
            | NotModelled => NotModelled
            end
          else if negb (nonempty ttype) && negb (nonempty tag) then
            compile_from st l' acc
          else if match ttype with
                  | String c _ => Ascii.eqb c SQ || Ascii.eqb c DQ
                  | EmptyString => false
                  end then
            compile_from
              (in_predicate (signature +:+ String SQ "")
                 (predicate ++ [String.substring 1 (String.length ttype - 2) ttype]))
              l' acc
          else
            compile_from
              (in_predicate (signature +:+ (if nonempty ttype then ttype else "-"))
                 (predicate ++ [tag]))
              l' acc
      end
  end.

(** The compiling half of [iterfind(elem, path, namespaces)]: [None]
    is the bare [return] on a path without tokens. *)
Definition compile (path : string) (ns : nsmap) : result (option (list selector)) :=
  let path := if endswith "/" path then path +:+ "*" else path in
  if startswith "/" path then raise SyntaxError "cannot use absolute path on element"
  else match xpath_tokenizer path ns with
       | [] => Val None
       | l => bind (compile_from (at_step false) l []) (fun s => Val (Some s))
       end.

(** *** Running the selectors *)

(** [_is_wildcard_tag(tag)] *)
Definition is_wildcard_tag (tag : string) : bool :=
  startswith "{*}" tag || endswith "}*" tag.

(** [_prepare_tag(tag)] for a wildcard tag, as a test on [elem.tag]. *)
Definition prepare_tag (tag : string) (el_tag : string) : bool :=
  if String.eqb tag "{*}*" then true
  else if String.eqb tag "{}*" then negb (startswith "{" el_tag)
  else if startswith "{*}" tag then
    String.eqb el_tag (drop 3 tag) || endswith (drop 2 tag) el_tag
  else startswith (String.substring 0 (String.length tag - 1) tag) el_tag.

(** ['{}tag' == 'tag'] *)
Definition strip_empty_ns (tag : string) : string :=
  if startswith "{}" tag then drop 2 tag else tag.

(** The test of [elem.iter(tag)]: ["*"] keeps every element. *)
Definition iter_match (tag : string) (e : element) : bool :=
  String.eqb tag "*" || String.eqb (ET.tag e) tag.

Definition needs_identity (s : selector) : bool :=
  match s with
  | sel_parent | sel_has_child _ | sel_text_eq _ _ | sel_text_ne _ _ | sel_index _ => true
  | _ => false
  end.

(** One selector applied to the node list it receives. The selectors
    that need the parent map, the text or a nested search are modelled
    on the empty list only, where they yield nothing. *)
Definition select (s : selector) (l : list element) : result (list element) :=
  match s with
  | sel_child tag =>
      if is_wildcard_tag tag
      then Val (List.filter (fun e => prepare_tag tag (ET.tag e)) (flat_map children l))
      else Val (flat_map
                  (fun e => List.filter (fun c => String.eqb (ET.tag c) (strip_empty_ns tag))
                              (children e)) l)
  | sel_star => Val (flat_map children l)
  | sel_self => Val l
  | sel_descendant tag =>
      if is_wildcard_tag tag
      then Val (List.filter (fun e => prepare_tag tag (ET.tag e)) (flat_map descendants l))
      else Val (flat_map
                  (fun e => List.filter (iter_match (strip_empty_ns tag)) (descendants e)) l)
  | sel_attr key =>
      Val (List.filter (fun e => match get e key with Some _ => true | None => false end) l)
  | sel_attr_eq key value =>
      Val (List.filter (fun e => match get e key with
                            | Some v => String.eqb v value
                            | None => false
                            end) l)
  | sel_attr_ne key value =>
      Val (List.filter (fun e => match get e key with
                            | Some v => negb (String.eqb v value)
                            | None => false
                            end) l)
  | sel_none => raise TypeError "'NoneType' object is not callable"
  | _ => match l with [] => Val [] | _ :: _ => NotModelled end
  end.

Fixpoint run (sels : list selector) (l : list element) : result (list element) :=
  match sels with
  | [] => Val l
  | s :: sels' => bind (select s l) (run sels')
  end.

Definition is_none (s : selector) : bool :=
  match s with sel_none => true | _ => false end.

(** [iterfind(elem, path, namespaces)]: [Val None] is the bare
    [return] of a path without tokens. Calling a [None] selector fails
    while the generators are chained, before any of them runs. *)
Definition iterfind (elem : element) (path : string) (ns : nsmap)
  : result (option (list element)) :=
  bind (compile path ns) (fun compiled =>
    match compiled with
    | None => Val None
    | Some sels =>
        if existsb is_none sels
        then raise TypeError "'NoneType' object is not callable"
        else bind (run sels [elem]) (fun l => Val (Some l))
    end).

(** [elem.find(path, namespaces)] *)
Definition find (elem : element) (path : string) (ns : nsmap) : result (option element) :=
  bind (iterfind elem path ns) (fun found =>
    match found with
    | None => raise TypeError "'NoneType' object is not an iterator"
    | Some l => Val (head l)
    end).

(** [elem.findall(path, namespaces)] *)
Definition findall (elem : element) (path : string) (ns : nsmap) : result (list element) :=
  bind (iterfind elem path ns) (fun found =>
    match found with
    | None => raise TypeError "'NoneType' object is not iterable"
    | Some l => Val l
    end).

End ElementPath.

(** ** pathlib.PurePosixPath *)

Module Pathlib.
Import PyStr.

(** A parsed path: the root (["" ], ["/"] or ["//"]) and the
    components after it. *)
Record Path : Type := mkPath { root : string; names : list string }.

(** [splitroot]: exactly two leading slashes are kept as ["//"]. *)
Definition splitroot (part : string) : string :=
  match part with
  | String "/" (String "/" (String "/" _)) => "/"
  | String "/" (String "/" _) => "//"
  | String "/" _ => "/"
  | _ => EmptyString
  end.

Definition keep_name (x : string) : bool :=
  nonempty x && negb (String.eqb x ".").

(** [Path(s)]: empty and ["."] components are dropped. *)
Definition parse (s : string) : Path :=
  mkPath (splitroot s) (List.filter keep_name (split "/" s)).

(** [str(p)] *)
Definition str (p : Path) : string :=
  match root p, names p with
  | EmptyString, [] => "."
  | r, l => r +:+ join "/" l
  end.

(** [p / key] for a string [key]: an anchored [key] replaces [p]. *)
Definition joinpath (p : Path) (key : string) : Path :=
  let k := parse key in
  if nonempty (root k) then k else mkPath (root p) (names p ++ names k).

(** [p.parent] *)
Definition parent (p : Path) : Path :=
  mkPath (root p) (removelast (names p)).

(** [p.name] *)
Definition name (p : Path) : string := List.last (names p) EmptyString.

(** [p.suffix] *)
Definition suffix (p : Path) : string :=
  let n := name p in
  match rfind "." n with
  | Some i => if (0 <? i) && (i <? String.length n - 1) then drop i n else EmptyString
  | None => EmptyString
  end.

(** The components of a path are not empty, as [parse] leaves them. *)
Definition wf (p : Path) : Prop := Forall (fun n => n <> EmptyString) (names p).

End Pathlib.

Module Import Notations.
Infix "</>" := Pathlib.joinpath (at level 40, left associativity).
End Notations.

(** ** Images, archives, the file system and effects *)

Module World.
Import ET Py.

(** A PIL image as far as the script looks at it. *)
Record image : Type := mkImage { mode : string; width : Z; height : Z }.

(** A text as [ET.fromstring] sees it: [ParseError] with its message,
    or the root element. *)
Inductive document : Type :=
| Malformed (err : string)
| Parsed (root : element).

(** An archive member: what [.decode('utf-8')] followed by
    [ET.fromstring] makes of its bytes ([None]: not UTF-8), and what
    [Image.open] makes of them ([None]: no image format recognised). *)
Record entry : Type := mkEntry { decoded : option document; picture : option image }.

(** [ZipFile.NameToInfo]: member names are exact keys. *)
Abbreviation archive := (gmap string entry).

Inductive node : Type :=
| Dir
| ZipArchive (members : archive)
| ImageFile (format : string) (im : image)
| OtherFile.

(** A file that is there and is not a ZIP archive. *)
Definition not_zip (f : node) : bool :=
  match f with
  | ImageFile _ _ | OtherFile => true
  | Dir | ZipArchive _ => false
  end.

(** The file system, keyed by [str(path)]. *)
Abbreviation filesystem := (gmap string node).

(** What a run leaves behind besides the file system: the lines
    printed and the members asked of the archive, in order. *)
Inductive event : Type :=
| Print (line : string)
| ZipRead (member : string).

(** Computations that print and read, and then return, raise or leave
    the model. *)
Definition M (A : Type) : Type := list event * result A.

Definition ret {A : Type} (a : A) : M A := ([], Val a).

Definition bindM {A B : Type} (m : M A) (k : A -> M B) : M B :=
  match m with
  | (t, Val a) => let '(t', r) := k a in (t ++ t', r)
  | (t, Raise e) => (t, Raise e)
  | (t, NotModelled) => (t, NotModelled)
  end.

Definition lift {A : Type} (r : result A) : M A := ([], r).

Definition throw {A : Type} (c : exn_class) (msg : string) : M A := lift (raise c msg).

Definition print (line : string) : M unit := ([Print line], Val tt).

(** [try: m except c as e: h e] *)
Definition try_except {A : Type} (m : M A) (c : exn_class) (h : exn -> M A) : M A :=
  match m with
  | (t, Raise e) => if isinstance e c then let '(t', r) := h e in (t ++ t', r) else m
  | _ => m
  end.

(** [try: m except Exception as e: h e] *)
Definition try_except_Exception {A : Type} (m : M A) (h : exn -> M A) : M A :=
  match m with
  | (t, Raise e) => let '(t', r) := h e in (t ++ t', r)
  | _ => m
  end.

(** [if x:] on a string that may be [None]. *)
Definition truthy (x : option string) : option string :=
  match x with
  | Some s => if PyStr.nonempty s then Some s else None
  | None => None
  end.

(** [ET.fromstring(text)] *)
Definition fromstring (text : document) : result element :=
  match text with
  | Malformed err => raise ParseError err
  | Parsed root => Val root
  end.

(** [epub_zip.read(member)] *)
Definition zip_read (epub_zip : archive) (member : string) : M entry :=
  ([ZipRead member],
   match epub_zip !! member with
   | Some e => Val e
   | None => raise KeyError member
   end).

(** [data.decode('utf-8')], kept together with the parse of the text. *)
Definition decode (data : entry) : M document :=
  match decoded data with
  | Some text => ret text
  | None => throw UnicodeDecodeError "utf-8"
  end.

(** [Image.open(io.BytesIO(data))]. Pillow reads the pixels later,
    on first use; that is taken to succeed. *)
Definition Image_open (data : entry) : M image :=
  match picture data with
  | Some im => ret im
  | None => throw UnidentifiedImageError "cannot identify image file"
  end.

(** [im.convert(mode)] *)
Definition convert (im : image) (new_mode : string) : image :=
  mkImage new_mode (width im) (height im).

(** How a run of [main] ends. *)
Inductive status : Type :=
| sys_exit (code : Z)
| returned
| uncaught (e : exn)
| left_model.

End World.

Module Import MNotations.
Notation "x <- m ;; k" := (World.bindM m (fun x => k))
  (at level 100, m at next level, right associativity).
Notation "m ;;; k" := (World.bindM m (fun _ => k))
  (at level 100, right associativity).
Notation "x <~ r ;; k" := (Py.bind r (fun x => k))
  (at level 100, r at next level, right associativity).
End MNotations.

(** ** scripts/extract_epub_thumbnail.py *)

Module Script.
Import PyStr ET Py ElementPath Pathlib World.

Definition namespaces : nsmap :=
  Some [("opf", "http://www.idpf.org/2007/opf");
        ("dc", "http://purl.org/dc/elements/1.1/")].

(** ['.//opf:meta[@name="cover"]'] *)
Definition meta_cover_path : string :=
  ".//opf:meta[@name=" +:+ String DQ "cover" +:+ String DQ "]".

(** [f'.//opf:item[@id="{cover_id}"]'] *)
Definition item_by_id_path (cover_id : string) : string :=
  ".//opf:item[@id=" +:+ String DQ cover_id +:+ String DQ "]".

(** ['.//opf:item[@properties="cover-image"]'] *)
Definition cover_image_path : string :=
  ".//opf:item[@properties=" +:+ String DQ "cover-image" +:+ String DQ "]".

(** ['.//opf:item'] *)
Definition item_path : string := ".//opf:item".

(** ['.//opf:item[starts-with(@media-type, "image/")]'] *)
Definition first_image_path : string :=
  ".//opf:item[starts-with(@media-type, " +:+ String DQ "image/" +:+ String DQ ")]".

(** [str(opf_dir / href)] *)
Definition joined (opf_dir : Path) (href : string) : string := str (opf_dir </> href).

(** Method 1, the loop over the [meta] elements with [name="cover"]:
    [Val None] when the loop ends without a [return]. *)
Fixpoint method1 (root : element) (opf_dir : Path) (metas : list element)
  : result (option string) :=
  match metas with
  | [] => Val None
  | meta :: rest =>
      match truthy (get meta "content") with
      | Some cover_id =>
          item <~ find root (item_by_id_path cover_id) namespaces ;;
          match item with
          | Some item =>
              match truthy (get item "href") with
              | Some href => Val (Some (joined opf_dir href))
              | None => method1 root opf_dir rest
              end
          | None => method1 root opf_dir rest
          end
      | None => method1 root opf_dir rest
      end
  end.

(** Method 2, the loop over the items with [properties="cover-image"]. *)
Fixpoint method2 (opf_dir : Path) (items : list element) : option string :=
  match items with
  | [] => None
  | item :: rest =>
      match truthy (get item "href") with
      | Some href => Some (joined opf_dir href)
      | None => method2 opf_dir rest
      end
  end.

(** The test of method 3 on one item. *)
Definition looks_like_cover (item : element) : bool :=
  let href := lower (get_default item "href" "") in
  let media_type := get_default item "media-type" "" in
  (contains "cover" href || contains "cover" (lower (get_default item "id" "")))
  && contains "image" media_type.

(** Method 3, the loop over all items: [opf_dir / None] raises
    [TypeError]. *)
Fixpoint method3 (opf_dir : Path) (items : list element) : result (option string) :=
  match items with
  | [] => Val None
  | item :: rest =>
      if looks_like_cover item then
        match get item "href" with
        | Some href => Val (Some (joined opf_dir href))
        | None => raise TypeError "unsupported operand type(s) for /: 'PosixPath' and 'NoneType'"
        end
      else method3 opf_dir rest
  end.

(** Method 4 *)
Definition method4 (root : element) (opf_dir : Path) : result (option string) :=
  item <~ find root first_image_path namespaces ;;
  match item with
  | Some item =>
      match truthy (get item "href") with
      | Some href => Val (Some (joined opf_dir href))
      | None => Val None
      end
  | None => Val None
  end.

(** The body of the [try] block of [find_cover_image_in_opf]; [Val
    None] when it is left without a [return]. *)
Definition find_cover_image_in_opf_try (opf_content : document) (opf_dir : Path)
  : result (option string) :=
  root <~ fromstring opf_content ;;
  metas <~ findall root meta_cover_path namespaces ;;
  by_meta <~ method1 root opf_dir metas ;;
  match by_meta with
  | Some path => Val (Some path)
  | None =>
      cover_items <~ findall root cover_image_path namespaces ;;
      match method2 opf_dir cover_items with
      | Some path => Val (Some path)
      | None =>
          items <~ findall root item_path namespaces ;;
          by_name <~ method3 opf_dir items ;;
          match by_name with
          | Some path => Val (Some path)
          | None => method4 root opf_dir
          end
      end
  end.

(** [find_cover_image_in_opf(opf_content, opf_dir)]: only
    [ET.ParseError] is caught. *)
Definition find_cover_image_in_opf (opf_content : document) (opf_dir : Path)
  : M (option string) :=
  try_except (lift (find_cover_image_in_opf_try opf_content opf_dir)) ParseError
    (fun e => print ("Warning: Could not parse OPF file: " +:+ detail e) ;;; ret None).

Definition common_paths : list string :=
  ["cover.jpg"; "cover.jpeg"; "cover.png";
   "images/cover.jpg"; "images/cover.jpeg"; "images/cover.png";
   "OEBPS/cover.jpg"; "OEBPS/cover.jpeg"; "OEBPS/cover.png";
   "OEBPS/images/cover.jpg"; "OEBPS/images/cover.jpeg"; "OEBPS/images/cover.png"].

(** The loop over [common_paths]: [None] when it ends without a
    [return]. Only [KeyError] moves on to the next path. *)
Fixpoint probe (epub_zip : archive) (paths : list string) : M (option image) :=
  match paths with
  | [] => ret None
  | path :: rest =>
      try_except
        (image_data <- zip_read epub_zip path ;;
         im <- Image_open image_data ;;
         ret (Some im))
        KeyError (fun _ => probe epub_zip rest)
  end.

Definition rootfile_path : string :=
  ".//{urn:oasis:names:tc:opendocument:xmlns:container}rootfile".

(** The end of the [with] block of [extract_cover_from_epub], from
    [if not cover_path:] on. *)
Definition open_cover (epub_zip : archive) (cover_path : option string) : M (option image) :=
  match truthy cover_path with
  | None =>
      print "Warning: Could not find cover image in OPF manifest, trying common locations..." ;;;
      found <- probe epub_zip common_paths ;;
      match found with
      | Some im => ret (Some im)
      | None => print "Error: Could not find cover image in EPUB" ;;; ret None
      end
  | Some cover_path =>
      let cover_path := replace BS "/" cover_path in
      try_except
        (image_data <- zip_read epub_zip cover_path ;;
         im <- Image_open image_data ;;
         ret (Some im))
        KeyError
        (fun _ =>
           print ("Error: Cover image not found at path: " +:+ cover_path) ;;;
           ret None)
  end.

(** The body of the [with] block of [extract_cover_from_epub]. *)
Definition extract_cover_from_zip (epub_zip : archive) : M (option image) :=
  container_data <- zip_read epub_zip "META-INF/container.xml" ;;
  container_xml <- decode container_data ;;
  container_root <- lift (fromstring container_xml) ;;
  rootfile <- lift (find container_root rootfile_path None) ;;
  match rootfile with
  | None => print "Error: Could not find rootfile in container.xml" ;;; ret None
  | Some rootfile =>
      match truthy (get rootfile "full-path") with
      | None => print "Error: OPF path not found in container.xml" ;;; ret None
      | Some opf_path =>
          opf_data <- zip_read epub_zip opf_path ;;
          opf_content <- decode opf_data ;;
          let opf_dir := parent (parse opf_path) in
          cover_path <- find_cover_image_in_opf opf_content opf_dir ;;
          open_cover epub_zip cover_path
      end
  end.

(** [zipfile.ZipFile(epub_path, 'r')] *)
Definition ZipFile (fs : filesystem) (epub_path : Path) : result archive :=
  match fs !! str epub_path with
  | Some (ZipArchive members) => Val members
  | Some Dir => raise IsADirectoryError (str epub_path)
  | Some _ => raise BadZipFile "File is not a zip file"
  | None => raise FileNotFoundError (str epub_path)
  end.

(** [extract_cover_from_epub(epub_path)] *)
Definition extract_cover_from_epub (fs : filesystem) (epub_path : Path) : M (option image) :=
  try_except_Exception
    (try_except
       (epub_zip <- lift (ZipFile fs epub_path) ;;
        extract_cover_from_zip epub_zip)
       BadZipFile
       (fun _ =>
          print ("Error: " +:+ str epub_path +:+ " is not a valid EPUB/ZIP file") ;;;
          ret None))
    (fun e => print ("Error extracting cover: " +:+ detail e) ;;; ret None).

(** [path.exists()] and [os.path.exists(path)] *)
Definition exists_ (fs : filesystem) (p : Path) : bool :=
  match fs !! str p with Some _ => true | None => false end.

(** [thumb_dir.mkdir(exist_ok=True)]: a file in the way raises. The
    directory above is the one that holds the EPUB, so it is there. *)
Definition mkdir_exist_ok (fs : filesystem) (p : Path) : result filesystem :=
  match fs !! str p with
  | None => Val (<[str p := Dir]> fs)
  | Some Dir => Val fs
  | Some _ => raise FileExistsError (str p)
  end.

Definition show_Z (z : Z) : string := NilZero.string_of_int (Z.to_int z).

Section main.

(** [Image.thumbnail] of Pillow: the size it gives an image of size
    [(width, height)] asked to fit the box [size]. The pixels and the
    mode are not looked at. *)
Variable thumbnail_size : Z * Z -> Z * Z -> Z * Z.

(** [im.thumbnail(size, resample)], which changes [im] in place. *)
Definition thumbnail (im : image) (size : Z * Z) : image :=
  let '(w, h) := thumbnail_size (width im, height im) size in
  mkImage (mode im) w h.

(** [main()] with [sys.argv] and the file system it starts in: the
    trace, the file system it leaves and how it ends. *)
Definition main (argv : list string) (fs : filesystem)
  : list event * filesystem * status :=
  match argv with
  | [_; arg] =>
      let epub_path := parse arg in
      if negb (exists_ fs epub_path) then
        ([Print ("Error: File not found: " +:+ str epub_path)], fs, sys_exit 1)
      else if negb (String.eqb (lower (suffix epub_path)) ".epub") then
        ([Print ("Error: File must be an EPUB file: " +:+ str epub_path)], fs, sys_exit 1)
      else
        let processing := Print ("Processing: " +:+ str epub_path) in
        match extract_cover_from_epub fs epub_path with
        | (t, Raise e) => (processing :: t, fs, uncaught e)
        | (t, NotModelled) => (processing :: t, fs, left_model)
        | (t, Val None) =>
            (processing :: t ++ [Print "Failed to extract cover image"], fs, sys_exit 1)
        | (t, Val (Some cover_image)) =>
            let thumb_dir := parent epub_path </> "thumb" in
            match mkdir_exist_ok fs thumb_dir with
            | Raise e => (processing :: t, fs, uncaught e)
            | NotModelled => (processing :: t, fs, left_model)
            | Val fs =>
                let thumbnail_path := thumb_dir </> (name epub_path +:+ ".png") in
                if exists_ fs thumbnail_path then
                  (processing :: t ++
                     [Print ("Thumbnail already exists:  skipping:  " +:+ str thumbnail_path)],
                   fs, sys_exit 0)
                else
                  let cover_image :=
                    if negb (String.eqb (mode cover_image) "RGB"
                             || String.eqb (mode cover_image) "RGBA")
                    then convert cover_image "RGB" else cover_image in
                  let thumbnail_size := (122, 150)%Z in
                  let cover_image := thumbnail cover_image thumbnail_size in
                  (processing :: t ++
                     [Print ("Thumbnail saved to: " +:+ str thumbnail_path);
                      Print ("Image size: " +:+ show_Z (width cover_image) +:+ "x"
                             +:+ show_Z (height cover_image))],
                   <[str thumbnail_path := ImageFile "PNG" cover_image]> fs,
                   returned)
            end
        end
  | _ => ([Print "Usage: python extract_epub_thumbnail.py <epub_file_path>"], fs, sys_exit 1)
  end.

End main.

End Script.

(** ** The manifest, in the words of the specification *)

Module Manifest.
Import PyStr ET Py Pathlib World Script.

(** A name of the OPF namespace, in Clark notation. *)
Definition opf (local : string) : string := "{http://www.idpf.org/2007/opf}" +:+ local.

Definition has_tag (t : string) (e : element) : bool := String.eqb (tag e) t.

(** The attribute [key] is present and equal to [value]. *)
Definition attr_is (key value : string) (e : element) : bool :=
  match get e key with
  | Some v => String.eqb v value
  | None => false
  end.

(** The [item] elements below the root, in document order. *)
Definition items (root : element) : list element :=
  List.filter (has_tag (opf "item")) (descendants root).

(** The [meta] elements with [name="cover"], in document order. *)
Definition cover_metas (root : element) : list element :=
  List.filter (attr_is "name" "cover") (List.filter (has_tag (opf "meta")) (descendants root)).

(** The items with [properties="cover-image"], in document order. *)
Definition cover_image_items (root : element) : list element :=
  List.filter (attr_is "properties" "cover-image") (items root).

(** The item an id names: the first item with that id. *)
Definition item_with_id (root : element) (id : string) : option element :=
  List.find (attr_is "id" id) (items root).

(** The href of an item, when it has one that is not empty. *)
Definition href_of (item : element) : option string := truthy (get item "href").

(** The href a [meta] element leads to: its [content] is not empty,
    names an item, and that item has an href. *)
Definition referenced_href (root : element) (meta : element) : option string :=
  match truthy (get meta "content") with
  | Some id =>
      match item_with_id root id with
      | Some item => href_of item
      | None => None
      end
  | None => None
  end.

(** The [content] of a [meta] element holds no double quote, as an
    XML name never does. *)
Definition unquoted (meta : element) : bool :=
  match get meta "content" with
  | Some id => negb (mem DQ id)
  | None => true
  end.

(** A [meta] element that method 1 passes over: it leads to no href. *)
Definition leads_nowhere (root : element) (meta : element) : bool :=
  unquoted meta && match referenced_href root meta with Some _ => false | None => true end.

(** The first element of a list that [f] maps to a value. *)
Fixpoint first_some {A B : Type} (f : A -> option B) (l : list A) : option B :=
  match l with
  | [] => None
  | a :: l' => match f a with Some b => Some b | None => first_some f l' end
  end.

(** The [rootfile] elements of a container document. *)
Definition is_rootfile (e : element) : bool :=
  has_tag "{urn:oasis:names:tc:opendocument:xmlns:container}rootfile" e.

(** What the [try] block does once method 1 has come to its result. *)
Definition after_method1 (root : element) (opf_dir : Path) : result (option string) :=
  match first_some href_of (cover_image_items root) with
  | Some href => Val (Some (joined opf_dir href))
  | None =>
      match List.find looks_like_cover (items root) with
      | Some item =>
          match get item "href" with
          | Some href => Val (Some (joined opf_dir href))
          | None => raise TypeError "unsupported operand type(s) for /: 'PosixPath' and 'NoneType'"
          end
      | None => raise SyntaxError "invalid predicate"
      end
  end.

(** The archive is packaged around [opf_content]: its container
    document names [opf_path] in its first [rootfile] element, and the
    member of that name decodes to [opf_content]. *)
Definition packaged (epub_zip : archive) (opf_path : string) (opf_content : document) : Prop :=
  exists (container_data : entry) (container_root rootfile : element) (opf_data : entry),
    epub_zip !! "META-INF/container.xml" = Some container_data
    /\ decoded container_data = Some (Parsed container_root)
    /\ List.find is_rootfile (descendants container_root) = Some rootfile
    /\ truthy (get rootfile "full-path") = Some opf_path
    /\ epub_zip !! opf_path = Some opf_data
    /\ decoded opf_data = Some opf_content.

(** [<epub_dir>/thumb/<epub_filename>.png] *)
Definition thumbnail_path (epub_path : Path) : Path :=
  Pathlib.parent epub_path </> "thumb" </> (Pathlib.name epub_path +:+ ".png").

End Manifest.

(** ** Sample documents *)

Module Samples.
Import PyStr ET Py ElementPath Pathlib World Script Manifest.

Definition item (id href media_type : string) : element :=
  Element (opf "item") [("id", id); ("href", href); ("media-type", media_type)] [].

Definition meta (name content : string) : element :=
  Element (opf "meta") [("name", name); ("content", content)] [].

(** [<package><metadata>metas</metadata><manifest>items</manifest></package>] *)
Definition package (metas items : list element) : element :=
  Element (opf "package") [("version", "2.0")]
    [Element (opf "metadata") [] metas; Element (opf "manifest") [] items].

(** [META-INF/container.xml] naming [full_path] as the package file. *)
Definition container (full_path : string) : element :=
  Element "{urn:oasis:names:tc:opendocument:xmlns:container}container" [("version", "1.0")]
    [Element "{urn:oasis:names:tc:opendocument:xmlns:container}rootfiles" []
       [Element "{urn:oasis:names:tc:opendocument:xmlns:container}rootfile"
          [("full-path", full_path); ("media-type", "application/oebps-package+xml")] []]].

Definition xml_entry (root : element) : entry := mkEntry (Some (Parsed root)) None.
Definition image_entry (im : image) : entry := mkEntry None (Some im).

Definition epub (opf_path : string) (package : element) (others : list (string * entry))
  : archive :=
  list_to_map
    (("META-INF/container.xml", xml_entry (container opf_path))
       :: (opf_path, xml_entry package) :: others).

Definition jpeg : image := mkImage "RGB" 600 800.
Definition cmyk_jpeg : image := mkImage "CMYK" 600 800.

Definition opf_dir : Path := parent (parse "OEBPS/content.opf").

(** The example of the specification: a cover named by a [meta]
    element. *)
Definition novel : element :=
  package [meta "cover" "cover-img"] [item "cover-img" "images/cover.jpg" "image/jpeg"].

(** Images only, none of them named after a cover. *)
Definition picture_book : element :=
  package [] [item "page1" "images/page1.png" "image/png";
              item "page2" "images/page2.png" "image/png"].

(** A cover-named item whose media type holds [image] without
    starting with it, before the cover image proper. *)
Definition drawing_first : element :=
  package []
    [item "cover-odi" "cover.odi" "application/vnd.oasis.opendocument.image";
     item "cover-img" "images/cover.jpg" "image/jpeg"].

(** Two [meta] elements named [cover]; the first names no item. *)
Definition two_metas : element :=
  package [meta "cover" "missing"; meta "cover" "img1"]
    [item "img0" "images/logo.png" "image/png";
     item "img1" "images/front.jpg" "image/jpeg"].

(** An id with a double quote in it, which no XML name has. *)
Definition quoted_id : element :=
  package [meta "cover" ("a" +:+ String DQ "b")]
    [item ("a" +:+ String DQ "b") "images/cover.jpg" "image/jpeg"].

Definition novel_epub : archive :=
  epub "OEBPS/content.opf" novel [("OEBPS/images/cover.jpg", image_entry jpeg)].

(** The manifest names a cover that the archive does not hold. *)
Definition broken_epub : archive := epub "OEBPS/content.opf" novel [].

(** An empty manifest, and a cover at a conventional place. *)
Definition bare_epub : archive :=
  epub "OEBPS/content.opf" (package [] []) [("cover.jpg", image_entry jpeg)].

(** A cover in CMYK. *)
Definition cmyk_epub : archive :=
  epub "OEBPS/content.opf" novel [("OEBPS/images/cover.jpg", image_entry cmyk_jpeg)].

Definition shelf (book : node) : filesystem :=
  <["books/novel.epub" := book]> (<["books" := Dir]> ∅).

(** The shelf with a thumbnail already in place. *)
Definition shelf_with_thumbnail (book : node) : filesystem :=
  <["books/thumb/novel.epub.png" := ImageFile "PNG" (mkImage "RGB" 112 150)]>
    (<["books/thumb" := Dir]> (shelf book)).

Definition argv : list string := ["extract_epub_thumbnail.py"; "books/novel.epub"].

(** A stand-in for Pillow's size computation: the box itself. *)
Definition fill_box (size box : Z * Z) : Z * Z := box.

End Samples.

(** ** What a run shows *)

Module Observations.
Import PyStr World.

(** The members a run asked of the archive, in order. *)
Fixpoint reads (t : list event) : list string :=
  match t with
  | [] => []
  | ZipRead member :: t' => member :: reads t'
  | Print _ :: t' => reads t'
  end.

(** The lines a run printed, in order. *)
Fixpoint printed (t : list event) : list string :=
  match t with
  | [] => []
  | Print line :: t' => line :: printed t'
  | ZipRead _ :: t' => printed t'
  end.

(** The last thing a run did was to print a line that starts with
    [Error]. *)
Definition ends_with_error (t : list event) : Prop :=
  exists (t' : list event) (line : string),
    t = t' ++ [Print line] /\ startswith "Error" line = true.

(** The archive holds no member of that name. *)
Definition absent (epub_zip : archive) (member : string) : bool :=
  match epub_zip !! member with
  | Some _ => false
  | None => true
  end.

(** The arguments pass the checks at the start of [main]: one path,
    which exists and whose extension is [.epub] in some letter case. *)
Definition accepted (argv : list string) (fs : filesystem) : bool :=
  match argv with
  | [_; arg] =>
      Script.exists_ fs (Pathlib.parse arg)
      && String.eqb (lower (Pathlib.suffix (Pathlib.parse arg))) ".epub"
  | _ => false
  end.

(** A character of a plain name: one that neither ends a name token
    nor starts a token of its own. *)
Definition name_char (c : ascii) : bool :=
  ElementPath.tag_char c && negb (mem c (String DQ (String SQ ".*:{"))).

End Observations.

(** ** More sample documents *)

Module MoreSamples.
Import PyStr ET Py ElementPath Pathlib World Script Manifest Samples.

Definition item_with_properties (id href media_type properties : string) : element :=
  Element (opf "item")
    [("id", id); ("href", href); ("media-type", media_type); ("properties", properties)] [].

(** An EPUB 3 manifest: the cover is marked by [properties]. *)
Definition marked_cover : element :=
  package []
    [item_with_properties "nav" "nav.xhtml" "application/xhtml+xml" "nav";
     item_with_properties "front" "images/front.jpg" "image/jpeg" "cover-image"].

(** A package file written without the OPF namespace. *)
Definition bare_tags : element :=
  Element "package" []
    [Element "metadata" [] [Element "meta" [("name", "cover"); ("content", "c")] []];
     Element "manifest" []
       [Element "item" [("id", "c"); ("href", "cover.jpg"); ("media-type", "image/jpeg")] []]].

(** An item named after a cover, typed as an image, without href. *)
Definition hrefless_cover : element :=
  package [] [Element (opf "item") [("id", "cover"); ("media-type", "image/jpeg")] []].

(** An archive whose package file is not well-formed XML. *)
Definition malformed_epub (others : list (string * entry)) : archive :=
  list_to_map
    (("META-INF/container.xml", xml_entry (container "OEBPS/content.opf"))
       :: ("OEBPS/content.opf",
           mkEntry (Some (Malformed "mismatched tag: line 3, column 2")) None)
       :: others).

(** A container document without any [rootfile] element. *)
Definition empty_container : element :=
  Element "{urn:oasis:names:tc:opendocument:xmlns:container}container" [("version", "1.0")]
    [Element "{urn:oasis:names:tc:opendocument:xmlns:container}rootfiles" [] []].

(** A container document whose [rootfile] has no [full-path]. *)
Definition pathless_container : element :=
  Element "{urn:oasis:names:tc:opendocument:xmlns:container}container" [("version", "1.0")]
    [Element "{urn:oasis:names:tc:opendocument:xmlns:container}rootfiles" []
       [Element "{urn:oasis:names:tc:opendocument:xmlns:container}rootfile"
          [("media-type", "application/oebps-package+xml")] []]].

Definition text_entry : entry := mkEntry (Some (Malformed "syntax error: line 1, column 0")) None.





End MoreSamples.

(** * Properties *)

(** ** Strings and lists *)

#[local] Arguments String.append !s1 s2 /.

Section string_facts.
Import PyStr.

Lemma app_length (a b : string) :
  String.length (a +:+ b) = String.length a + String.length b.
Proof. induction a as [|c a IH]; simpl; [reflexivity | now rewrite IH]. Qed.

Lemma app_assoc (a b c : string) : (a +:+ b) +:+ c = a +:+ (b +:+ c).
Proof. induction a as [|x a IH]; simpl; [reflexivity | now rewrite IH]. Qed.

Lemma substring_prefix (a b : string) :
  String.substring 0 (String.length a) (a +:+ b) = a.
Proof.
  induction a as [|c a IH]; simpl.
  - destruct b; reflexivity.
  - now rewrite IH.
Qed.

Lemma endswith_last (x y : ascii) (a : string) :
  endswith (chr x) (a +:+ chr y) = Ascii.eqb x y.
Proof.
  induction a as [|c a IH]; simpl.
  - destruct (Ascii.eqb x y); reflexivity.
  - rewrite IH. destruct (Ascii.eqb x c); simpl; [|reflexivity].
    destruct a; reflexivity.
Qed.

Lemma lower_length (s : string) : String.length (lower s) = String.length s.
Proof. induction s as [|c s IH]; simpl; [reflexivity | now rewrite IH]. Qed.

Lemma drop_length (n : nat) (s : string) :
  String.length (drop n s) = String.length s - n.
Proof.
  revert s; induction n as [|n IH]; intros s; simpl.
  - lia.
  - destruct s as [|c s]; simpl; [reflexivity | apply IH].
Qed.




End string_facts.

Section list_facts.
Context {A : Type}.

Lemma filter_filter (p q : A -> bool) (l : list A) :
  List.filter q (List.filter p l) = List.filter (fun a => p a && q a) l.
Proof.
  induction l as [|a l IH]; simpl; [reflexivity|].
  destruct (p a); simpl; [destruct (q a)|]; now rewrite IH.
Qed.

Lemma head_filter (p : A -> bool) (l : list A) :
  head (List.filter p l) = List.find p l.
Proof.
  induction l as [|a l IH]; simpl; [reflexivity|].
  destruct (p a); [reflexivity | exact IH].
Qed.

Lemma find_app_skip (p : A -> bool) (pre post : list A) :
  List.forallb (fun a => negb (p a)) pre = true ->
  List.find p (pre ++ post) = List.find p post.
Proof.
  induction pre as [|a pre IH]; simpl; [reflexivity|].
  intros H. apply andb_prop in H as [Ha Hpre].
  destruct (p a); [discriminate | now apply IH].
Qed.

End list_facts.

(** ** The paths of the script, compiled *)

Section elementpath_facts.
Import PyStr ET Py ElementPath Script Manifest.

Lemma quoted_app (q : ascii) (c r : string) :
  mem q c = false -> quoted q (c +:+ String q r) = Some c.
Proof.
  induction c as [|x c IH]; simpl; intros H.
  - now rewrite Ascii.eqb_refl.
  - apply orb_false_elim in H as [Hx Hc].
    rewrite Ascii.eqb_sym, Hx, (IH Hc). reflexivity.
Qed.

Lemma scan_skip (a b : string) : scan (a +:+ b) (String.length a) = scan b 0.
Proof. induction a as [|x a IH]; simpl; [reflexivity | exact IH]. Qed.

Lemma scan_skip_cons (a b : string) (x : ascii) :
  scan (a +:+ String x b) (S (String.length a)) = scan b 0.
Proof. induction a as [|y a IH]; simpl; [destruct b; reflexivity | exact IH]. Qed.

Lemma substring_quoted (q : ascii) (c : string) :
  String.substring 1 (String.length (String q c +:+ chr q) - 2) (String q c +:+ chr q) = c.
Proof.
  simpl. rewrite app_length. simpl.
  replace (String.length c + 1 - 1) with (String.length c) by lia.
  apply substring_prefix.
Qed.

Lemma item_by_id_path_no_slash (c : string) : endswith "/" (item_by_id_path c) = false.
Proof.
  unfold item_by_id_path.
  replace (".//opf:item[@id=" +:+ String DQ c +:+ String DQ "]")
    with ((".//opf:item[@id=" +:+ String DQ c +:+ chr DQ) +:+ chr "]").
  - apply (endswith_last "/" "]").
  - now rewrite !app_assoc.
Qed.

(** An id without a double quote reaches ElementPath as the value of
    one [[@id=...]] predicate. *)
Lemma compile_item_by_id (c : string) :
  mem DQ c = false ->
  compile (item_by_id_path c) namespaces
  = Val (Some [sel_self; sel_descendant (opf "item"); sel_attr_eq "id" c]).
Proof.
  intros Hc. unfold compile. rewrite item_by_id_path_no_slash.
  unfold item_by_id_path, xpath_tokenizer, findall_tokens. simpl.
  unfold next_token. simpl. rewrite (quoted_app DQ c "]" Hc). simpl.
  rewrite scan_skip_cons. simpl.
  rewrite app_length. simpl.
  replace (String.length c + 1 - 1) with (String.length c) by lia.
  now rewrite substring_prefix.
Qed.

Lemma compile_meta_cover :
  compile meta_cover_path namespaces
  = Val (Some [sel_self; sel_descendant (opf "meta"); sel_attr_eq "name" "cover"]).
Proof. reflexivity. Qed.

Lemma compile_cover_image :
  compile cover_image_path namespaces
  = Val (Some [sel_self; sel_descendant (opf "item");
               sel_attr_eq "properties" "cover-image"]).
Proof. reflexivity. Qed.

Lemma compile_item :
  compile item_path namespaces = Val (Some [sel_self; sel_descendant (opf "item")]).
Proof. reflexivity. Qed.

Lemma compile_rootfile :
  compile rootfile_path None
  = Val (Some [sel_self;
               sel_descendant "{urn:oasis:names:tc:opendocument:xmlns:container}rootfile"]).
Proof. reflexivity. Qed.

(** The path of method 4 does not compile: the tokens between the
    brackets have the signature [-(@-')], which [prepare_predicate]
    does not know. *)
Lemma compile_first_image :
  compile first_image_path namespaces = raise SyntaxError "invalid predicate".
Proof. reflexivity. Qed.

Lemma findall_meta_cover (root : element) :
  findall root meta_cover_path namespaces = Val (cover_metas root).
Proof.
  unfold findall, iterfind. rewrite compile_meta_cover. simpl.
  rewrite List.app_nil_r. reflexivity.
Qed.

Lemma findall_cover_image (root : element) :
  findall root cover_image_path namespaces = Val (cover_image_items root).
Proof.
  unfold findall, iterfind. rewrite compile_cover_image. simpl.
  rewrite List.app_nil_r. reflexivity.
Qed.

Lemma findall_item (root : element) :
  findall root item_path namespaces = Val (items root).
Proof.
  unfold findall, iterfind. rewrite compile_item. simpl.
  rewrite List.app_nil_r. reflexivity.
Qed.

Lemma find_item_by_id (root : element) (c : string) :
  mem DQ c = false ->
  find root (item_by_id_path c) namespaces = Val (item_with_id root c).
Proof.
  intros Hc. unfold find, iterfind. rewrite (compile_item_by_id c Hc). simpl.
  rewrite List.app_nil_r. f_equal. apply head_filter.
Qed.

Lemma find_rootfile (root : element) :
  find root rootfile_path None = Val (List.find is_rootfile (descendants root)).
Proof.
  unfold find, iterfind. rewrite compile_rootfile. simpl.
  rewrite List.app_nil_r. f_equal. apply head_filter.
Qed.

Lemma find_first_image (root : element) :
  find root first_image_path namespaces = raise SyntaxError "invalid predicate".
Proof. unfold find, iterfind. now rewrite compile_first_image. Qed.


End elementpath_facts.

(** ** The resolver *)

Section resolver_facts.
Import PyStr ET Py ElementPath Pathlib World Script Manifest.
#[local] Arguments findall : simpl never.
#[local] Arguments find : simpl never.
#[local] Arguments method1 : simpl never.

Lemma truthy_Some (x : option string) (s : string) :
  truthy x = Some s -> x = Some s /\ s <> EmptyString.
Proof.
  destruct x as [t|]; simpl; [|discriminate].
  destruct t; simpl; [discriminate|]. intros [= <-]. split; [reflexivity | discriminate].
Qed.

Lemma truthy_nonempty (s : string) : s <> EmptyString -> truthy (Some s) = Some s.
Proof. destruct s; [congruence | reflexivity]. Qed.

(** One turn of the loop of method 1. *)
Lemma method1_cons (root : element) (opf_dir : Path) (meta : element) (rest : list element) :
  unquoted meta = true ->
  method1 root opf_dir (meta :: rest)
  = match referenced_href root meta with
    | Some href => Val (Some (joined opf_dir href))
    | None => method1 root opf_dir rest
    end.
Proof.
  intros Hq. unfold referenced_href, href_of, method1; fold method1.
  destruct (truthy (get meta "content")) as [id|] eqn:Hid; [|reflexivity].
  apply truthy_Some in Hid as [Hid _].
  unfold unquoted in Hq. rewrite Hid in Hq. apply negb_true_iff in Hq.
  rewrite (find_item_by_id root id Hq). simpl.
  destruct (item_with_id root id) as [item|]; reflexivity.
Qed.

Lemma method1_skip (root : element) (opf_dir : Path) (pre rest : list element) :
  forallb (leads_nowhere root) pre = true ->
  method1 root opf_dir (pre ++ rest) = method1 root opf_dir rest.
Proof.
  induction pre as [|m pre IH]; [reflexivity|].
  intros H. apply andb_prop in H as [Hm Hpre].
  apply andb_prop in Hm as [Hq Hn].
  rewrite <- List.app_comm_cons, (method1_cons _ _ _ _ Hq).
  destruct (referenced_href root m); [discriminate | now apply IH].
Qed.

Lemma method1_none (root : element) (opf_dir : Path) (metas : list element) :
  forallb (leads_nowhere root) metas = true ->
  method1 root opf_dir metas = Val None.
Proof.
  intros H. rewrite <- (List.app_nil_r metas). now rewrite method1_skip.
Qed.

Lemma method2_spec (opf_dir : Path) (l : list element) :
  method2 opf_dir l = option_map (joined opf_dir) (first_some href_of l).
Proof.
  induction l as [|item l IH]; [reflexivity|]. simpl. unfold href_of at 1.
  destruct (truthy (get item "href")); [reflexivity | exact IH].
Qed.

Lemma method3_spec (opf_dir : Path) (l : list element) :
  method3 opf_dir l
  = match List.find looks_like_cover l with
    | Some item =>
        match get item "href" with
        | Some href => Val (Some (joined opf_dir href))
        | None => raise TypeError "unsupported operand type(s) for /: 'PosixPath' and 'NoneType'"
        end
    | None => Val None
    end.
Proof.
  induction l as [|item l IH]; [reflexivity|]. simpl.
  destruct (looks_like_cover item); [reflexivity | exact IH].
Qed.

(** Method 4 never gets as far as looking at an item. *)
Lemma method4_raises (root : element) (opf_dir : Path) :
  method4 root opf_dir = raise SyntaxError "invalid predicate".
Proof. unfold method4. now rewrite find_first_image. Qed.

Lemma try_block_spec (root : element) (opf_dir : Path) :
  find_cover_image_in_opf_try (Parsed root) opf_dir
  = (by_meta <~ method1 root opf_dir (cover_metas root) ;;
     match by_meta with
     | Some path => Val (Some path)
     | None => after_method1 root opf_dir
     end).
Proof.
  unfold find_cover_image_in_opf_try, after_method1.
  cbv beta iota delta [bind fromstring].
  rewrite findall_meta_cover.
  destruct (method1 root opf_dir (cover_metas root)) as [[path|]|e|]; try reflexivity.
  rewrite findall_cover_image, method2_spec.
  destruct (first_some href_of (cover_image_items root)); [reflexivity|].
  cbv beta iota delta [option_map].
  rewrite findall_item, method3_spec.
  destruct (List.find looks_like_cover (items root)) as [item|].
  - destruct (get item "href"); reflexivity.
  - apply method4_raises.
Qed.

End resolver_facts.

(** ** Paths *)

Section path_facts.
Import PyStr Pathlib.

Lemma parse_wf (s : string) : wf (parse s).
Proof.
  unfold wf, parse. simpl. apply List.Forall_forall. intros n Hn.
  apply List.filter_In in Hn as [_ Hn]. unfold keep_name in Hn.
  destruct n; [discriminate | discriminate].
Qed.

Lemma parent_wf (p : Path) : wf p -> wf (parent p).
Proof.
  unfold wf, parent. simpl. intros H. apply List.Forall_forall. intros n Hn.
  rewrite List.Forall_forall in H. apply H.
  destruct (names p) as [|x l] eqn:E; [contradiction|].
  rewrite (List.app_removelast_last EmptyString (l := x :: l)) by discriminate.
  apply List.in_or_app. now left.
Qed.

Lemma joinpath_wf (p : Path) (key : string) : wf p -> wf (p </> key).
Proof.
  unfold joinpath. intros H. destruct (nonempty (root (parse key))).
  - apply parse_wf.
  - unfold wf. simpl. apply List.Forall_app. split; [exact H | apply parse_wf].
Qed.

Lemma join_nonempty (sep : ascii) (x : string) (l : list string) :
  x <> EmptyString -> join sep (x :: l) <> EmptyString.
Proof.
  intros Hx. destruct x as [|c x]; [congruence|].
  destruct l; simpl; discriminate.
Qed.

Lemma str_nonempty (p : Path) : wf p -> str p <> EmptyString.
Proof.
  unfold wf, str. intros H.
  destruct (names p) as [|x l].
  - destruct (root p); simpl; discriminate.
  - apply List.Forall_inv in H.
    pose proof (join_nonempty "/" x l H) as Hj.
    destruct (root p); simpl; [exact Hj | discriminate].
Qed.

Lemma mem_app (c : ascii) (a b : string) : mem c (a +:+ b) = mem c a || mem c b.
Proof.
  induction a as [|x a IH]; simpl; [reflexivity|].
  rewrite IH. now rewrite orb_assoc.
Qed.

Lemma split_no_sep (sep : ascii) (s : string) :
  Forall (fun n => mem sep n = false) (split sep s).
Proof.
  induction s as [|c s IH]; simpl; [repeat constructor|].
  destruct (Ascii.eqb c sep) eqn:E; [constructor; [reflexivity | exact IH]|].
  destruct (split sep s) as [|x l]; inversion IH; subst; constructor; simpl; auto.
  - rewrite Ascii.eqb_sym, E. reflexivity.
  - rewrite Ascii.eqb_sym, E. assumption.
Qed.

Lemma split_single (sep : ascii) (s : string) :
  mem sep s = false -> split sep s = [s].
Proof.
  induction s as [|c s IH]; simpl; [reflexivity|].
  intros H. apply orb_false_elim in H as [Hc Hs].
  rewrite Ascii.eqb_sym, Hc, (IH Hs). reflexivity.
Qed.

Lemma last_Forall (P : string -> Prop) (l : list string) :
  P EmptyString -> Forall P l -> P (List.last l EmptyString).
Proof.
  intros H0 H. induction H as [|x l Hx Hl IH]; simpl; [exact H0|].
  destruct l; [exact Hx | exact IH].
Qed.

(** A component of a parsed path holds no slash. *)
Lemma name_no_slash (s : string) : mem "/" (name (parse s)) = false.
Proof.
  unfold name, parse. simpl. apply (last_Forall (fun n => mem "/" n = false)); [reflexivity|].
  apply List.Forall_forall. intros n Hn. apply List.filter_In in Hn as [Hn _].
  pose proof (split_no_sep "/" s) as H. rewrite List.Forall_forall in H. now apply H.
Qed.

(** [Path(name + ".png")] is the one component [name + ".png"]. *)
Lemma parse_png (n : string) :
  mem "/" n = false -> parse (n +:+ ".png") = mkPath EmptyString [n +:+ ".png"].
Proof.
  intros Hn. unfold parse. f_equal.
  - destruct n as [|c n]; [reflexivity|]. simpl in Hn.
    apply orb_false_elim in Hn as [Hc _].
    destruct (Ascii.eqb_spec "/" c) as [<-|Hne]; [discriminate|].
    simpl. destruct c as [[] [] [] [] [] [] [] []]; try reflexivity. congruence.
  - rewrite split_single by (rewrite mem_app, Hn; reflexivity). simpl.
    assert (H : keep_name (n +:+ ".png") = true).
    { destruct n as [|c [|d n]]; simpl; try reflexivity.
      - unfold keep_name. simpl. destruct (Ascii.eqb c "."); reflexivity.
      - unfold keep_name. simpl. destruct (Ascii.eqb c "."); reflexivity. }
    now rewrite H.
Qed.

Lemma join_snoc (sep : ascii) (l : list string) (x y : string) :
  join sep ((x :: l) ++ [y]) = join sep (x :: l) +:+ String sep y.
Proof.
  revert x; induction l as [|z l IH]; intros x; [reflexivity|].
  change (join sep ((x :: z :: l) ++ [y])) with (x +:+ String sep (join sep ((z :: l) ++ [y]))).
  rewrite IH.
  change (join sep (x :: z :: l)) with (x +:+ String sep (join sep (z :: l))).
  rewrite app_assoc. reflexivity.
Qed.

Lemma str_snoc (r x y : string) (l : list string) :
  str (mkPath r ((x :: l) ++ [y])) = str (mkPath r (x :: l)) +:+ String "/" y.
Proof.
  unfold str. cbn [Pathlib.root Pathlib.names].
  change ((x :: l) ++ [y]) with (x :: (l ++ [y])).
  assert (H : join "/" (x :: l ++ [y]) = join "/" (x :: l) +:+ String "/" y)
    by apply join_snoc.
  destruct r; rewrite H; [reflexivity|]. now rewrite app_assoc.
Qed.

Lemma thumb_dir_parts (p : Path) :
  p </> "thumb" = mkPath (Pathlib.root p) (Pathlib.names p ++ ["thumb"]).
Proof. reflexivity. Qed.

(** The thumbnail lies one component below the [thumb] directory. *)
Lemma str_thumbnail_path (s : string) :
  str (parent (parse s) </> "thumb" </> (name (parse s) +:+ ".png"))
  = str (parent (parse s) </> "thumb") +:+ String "/" (name (parse s) +:+ ".png").
Proof.
  rewrite thumb_dir_parts. unfold joinpath.
  rewrite (parse_png _ (name_no_slash s)). cbn [Pathlib.root Pathlib.names nonempty].
  destruct (Pathlib.names (parent (parse s))) as [|x l]; apply str_snoc.
Qed.

Lemma thumbnail_not_thumb_dir (s : string) :
  str (parent (parse s) </> "thumb")
  <> str (parent (parse s) </> "thumb" </> (name (parse s) +:+ ".png")).
Proof.
  intros H. rewrite str_thumbnail_path in H.
  apply (f_equal String.length) in H. rewrite app_length in H. simpl in H. lia.
Qed.

End path_facts.

(** ** The resolver, as a whole *)

Section resolver_outcomes.
Import PyStr ET Py ElementPath Pathlib World Script Manifest Samples.
#[local] Arguments findall : simpl never.
#[local] Arguments find : simpl never.
#[local] Arguments method1 : simpl never.


(** Whatever heuristic 1 returns is a joined href. *)
Lemma method1_joined (root : element) (dir : Path) (metas : list element) (p : string) :
  method1 root dir metas = Val (Some p) -> exists href, p = joined dir href.
Proof.
  induction metas as [|m metas IH]; unfold method1; fold method1; [discriminate|].
  destruct (truthy (get m "content")) as [id|]; [|exact IH].
  destruct (find root (item_by_id_path id) namespaces) as [[item|]|e|];
    simpl; try discriminate; try exact IH.
  destruct (truthy (get item "href")) as [href|]; [|exact IH].
  intros [= <-]. now exists href.
Qed.

Lemma after_method1_joined (root : element) (dir : Path) (p : string) :
  after_method1 root dir = Val (Some p) ->
  exists href, p = joined dir href.
Proof.
  unfold after_method1.
  destruct (first_some href_of (cover_image_items root)) as [h|].
  - intros [= <-]. now exists h.
  - destruct (List.find looks_like_cover (items root)) as [item|]; [|discriminate].
    destruct (get item "href") as [h|]; [|discriminate].
    intros [= <-]. now exists h.
Qed.

(** A path the resolver returns is a joined href. *)
Lemma resolved_joined (opf_content : document) (dir : Path) (t : list event) (p : string) :
  find_cover_image_in_opf opf_content dir = (t, Val (Some p)) ->
  exists href, p = joined dir href.
Proof.
  destruct opf_content as [err|root]; [discriminate|].
  unfold find_cover_image_in_opf, try_except, lift. rewrite try_block_spec.
  destruct (method1 root dir (cover_metas root)) as [[q|]|e|] eqn:H1;
    cbv beta iota delta [bind].
  - intros [= _ <-]. eapply method1_joined, H1.
  - destruct (after_method1 root dir) as [[q|]|e|] eqn:H2; try discriminate.
    + intros [= _ <-]. eapply after_method1_joined, H2.
    + destruct (isinstance e ParseError); discriminate.
  - destruct (isinstance e ParseError); discriminate.
  - discriminate.
Qed.

(** ElementPath raises [SyntaxError], [KeyError] and [TypeError], and
    no [ParseError]. *)
Lemma prepare_predicate_not_parse_error (signature : string) (predicate : list string) :
  not_parse_error (prepare_predicate signature predicate).
Proof.
  intros e. unfold prepare_predicate.
  repeat match goal with
         | |- context [if ?b then _ else _] => destruct b
         | |- context [match ?x with Some _ => _ | None => _ end] => destruct x
         end; try discriminate; now intros [= <-].
Qed.

Lemma resolve_prefixes_not_parse_error (ns : nsmap) (b : bool) (l : list token) :
  Forall not_parse_error (resolve_prefixes ns b l).
Proof.
  revert b; induction l as [|[ttype tag] l IH]; intros b; [constructor|].
  unfold resolve_prefixes; fold resolve_prefixes.
  destruct (nonempty tag && negb (startswith "{" tag)); constructor; try apply IH.
  - intros e.
    destruct (split_colon tag) as [[prefix uri]|].
    + destruct (ns_get ns prefix); [discriminate | now intros [= <-]].
    + destruct (ns_get ns EmptyString) as [d|]; [|discriminate].
      destruct (nonempty d && negb b); discriminate.
  - discriminate.
Qed.

Lemma compile_from_not_parse_error (l : list (result token)) :
  Forall not_parse_error l ->
  forall st acc, not_parse_error (compile_from st l acc).
Proof.
  induction 1 as [|r l Hr Hl IH]; intros st acc e;
    unfold compile_from; fold compile_from.
  - destruct st; discriminate.
  - destruct r as [[ttype tag]|e'|]; [|intros [= <-]; now apply Hr|discriminate].
    destruct st as [slash_ok| |signature predicate].
    + repeat match goal with
             | |- context [if ?b then _ else _] => destruct b
             end; try apply IH. now intros [= <-].
    + repeat match goal with
             | |- context [if ?b then _ else _] => destruct b
             end; try apply IH. now intros [= <-].
    + destruct (ttype =? "]")%string.
      * destruct (prepare_predicate signature predicate) as [s|e'|] eqn:Hc;
          [apply IH | | discriminate].
        intros [= <-]. eapply prepare_predicate_not_parse_error, Hc.
      * repeat match goal with
               | |- context [if ?b then _ else _] => destruct b
               end; apply IH.
Qed.

Lemma select_not_parse_error (s : selector) (l : list element) :
  not_parse_error (select s l).
Proof.
  intros e. destruct s; simpl;
    repeat match goal with
           | |- context [if ?b then _ else _] => destruct b
           end; try discriminate; try (destruct l; discriminate).
  now intros [= <-].
Qed.

Lemma run_not_parse_error (sels : list selector) (l : list element) :
  not_parse_error (run sels l).
Proof.
  revert l; induction sels as [|s sels IH]; intros l e; simpl; [discriminate|].
  destruct (select s l) as [l'|e'|] eqn:Hs; simpl; [apply IH | | discriminate].
  intros [= <-]. eapply select_not_parse_error, Hs.
Qed.

Lemma find_not_parse_error (root : element) (path : string) (ns : nsmap) :
  not_parse_error (ElementPath.find root path ns).
Proof.
  intros e. unfold ElementPath.find, iterfind, compile.
  set (path' := if endswith "/" path then path +:+ "*" else path).
  destruct (startswith "/" path'); [now intros [= <-]|].
  unfold xpath_tokenizer.
  pose proof (resolve_prefixes_not_parse_error ns false (findall_tokens path')) as Hl.
  destruct (resolve_prefixes ns false (findall_tokens path')) as [|r l] eqn:El.
  - simpl. now intros [= <-].
  - pose proof (compile_from_not_parse_error _ Hl (at_step false) []) as Hc.
    destruct (compile_from (at_step false) (r :: l) []) as [sels|e'|] eqn:Ec;
      cbv beta iota delta [bind].
    + destruct (existsb is_none sels); [now intros [= <-]|].
      pose proof (run_not_parse_error sels [root]) as Hr.
      destruct (run sels [root]) as [found|e'|]; cbv beta iota delta [bind];
        [discriminate | | discriminate].
      intros [= <-]. now apply Hr.
    + intros [= <-]. now apply Hc.
    + discriminate.
Qed.

Lemma method1_not_parse_error (root : element) (dir : Path) (metas : list element) :
  not_parse_error (method1 root dir metas).
Proof.
  induction metas as [|m metas IH]; unfold method1; fold method1; [discriminate|].
  destruct (truthy (get m "content")) as [id|]; [|exact IH].
  pose proof (find_not_parse_error root (item_by_id_path id) namespaces) as Hf.
  destruct (find root (item_by_id_path id) namespaces) as [[item|]|e'|];
    cbv beta iota delta [bind]; try exact IH.
  - destruct (truthy (get item "href")); [discriminate | exact IH].
  - intros e [= <-]. now apply Hf.
  - discriminate.
Qed.

Lemma try_block_not_parse_error (root : element) (dir : Path) :
  not_parse_error (find_cover_image_in_opf_try (Parsed root) dir).
Proof.
  rewrite try_block_spec.
  pose proof (method1_not_parse_error root dir (cover_metas root)) as H1.
  destruct (method1 root dir (cover_metas root)) as [[q|]|e'|];
    cbv beta iota delta [bind]; try discriminate.
  - unfold after_method1.
    destruct (first_some href_of (cover_image_items root)); [discriminate|].
    destruct (List.find looks_like_cover (items root)) as [item|];
      [destruct (get item "href")|]; try discriminate; now intros e [= <-].
  - intros e [= <-]. now apply H1.
Qed.

(** On a well-formed document the [except] clause never runs. *)
Lemma find_cover_image_in_opf_lift (root : element) (dir : Path) :
  find_cover_image_in_opf (Parsed root) dir
  = lift (find_cover_image_in_opf_try (Parsed root) dir).
Proof.
  unfold find_cover_image_in_opf, try_except, lift.
  pose proof (try_block_not_parse_error root dir) as H.
  destruct (find_cover_image_in_opf_try (Parsed root) dir) as [v|e|]; try reflexivity.
  now rewrite (H e eq_refl).
Qed.

(** With a well-formed document the resolver never answers [None]:
    the one way to [return None] is a [ParseError]. *)
Lemma parsed_never_none (root : element) (dir : Path) (t : list event) :
  find_cover_image_in_opf (Parsed root) dir <> (t, Val None).
Proof.
  rewrite find_cover_image_in_opf_lift, try_block_spec. unfold lift.
  destruct (method1 root dir (cover_metas root)) as [[q|]|e|] eqn:H1;
    cbv beta iota delta [bind]; try discriminate.
  unfold after_method1.
  destruct (first_some href_of (cover_image_items root)); [discriminate|].
  destruct (List.find looks_like_cover (items root)) as [item|]; [|discriminate].
  destruct (get item "href"); discriminate.
Qed.

End resolver_outcomes.

(** ** Reading the archive *)

Section extraction_facts.
Import PyStr ET Py ElementPath Pathlib World Script Manifest.

(** The start of the [with] block on a packaged archive: two reads,
    then the resolver, then [open_cover]. *)
Lemma extract_packaged (epub_zip : archive) (opf_path : string) (opf_content : document) :
  packaged epub_zip opf_path opf_content ->
  extract_cover_from_zip epub_zip
  = (([ZipRead "META-INF/container.xml"; ZipRead opf_path], Val tt) ;;;
     cover_path <- find_cover_image_in_opf opf_content (parent (parse opf_path)) ;;
     open_cover epub_zip cover_path).
Proof.
  intros (cd & cr & rf & od & Hc & Hcd & Hrf & Hop & Ho & Hod).
  unfold extract_cover_from_zip, zip_read, decode. rewrite Hc.
  cbv beta iota delta [bindM]. rewrite Hcd.
  cbv beta iota delta [ret lift fromstring]. rewrite find_rootfile, Hrf, Hop, Ho.
  cbv beta iota. rewrite Hod. cbv beta iota.
  destruct (find_cover_image_in_opf opf_content (parent (parse opf_path))) as [t [v|e|]];
    try reflexivity.
  destruct (open_cover epub_zip v) as [t' r']. reflexivity.
Qed.

Lemma open_cover_missing (epub_zip : archive) (p : string) :
  p <> EmptyString ->
  epub_zip !! replace BS "/" p = None ->
  open_cover epub_zip (Some p)
  = ([ZipRead (replace BS "/" p);
      Print ("Error: Cover image not found at path: " +:+ replace BS "/" p)],
     Val None).
Proof.
  intros Hp Hnone. unfold open_cover. rewrite (truthy_nonempty p Hp).
  unfold zip_read. rewrite Hnone. reflexivity.
Qed.

Lemma open_cover_image (epub_zip : archive) (p : string) (data : entry) (im : image) :
  p <> EmptyString ->
  epub_zip !! replace BS "/" p = Some data ->
  picture data = Some im ->
  open_cover epub_zip (Some p) = ([ZipRead (replace BS "/" p)], Val (Some im)).
Proof.
  intros Hp Hdata Him. unfold open_cover. rewrite (truthy_nonempty p Hp).
  unfold zip_read, Image_open. rewrite Hdata. cbv beta iota delta [bindM try_except].
  rewrite Him. reflexivity.
Qed.


(** [extract_cover_from_epub] on a file that is a ZIP archive. *)
Lemma extract_from_archive (fs : filesystem) (epub_path : Path) (epub_zip : archive) :
  fs !! str epub_path = Some (ZipArchive epub_zip) ->
  extract_cover_from_epub fs epub_path
  = match extract_cover_from_zip epub_zip with
    | (t, Raise e) =>
        if isinstance e BadZipFile
        then (t ++ [Print ("Error: " +:+ str epub_path +:+ " is not a valid EPUB/ZIP file")],
              Val None)
        else (t ++ [Print ("Error extracting cover: " +:+ detail e)], Val None)
    | other => other
    end.
Proof.
  intros Hfs. unfold extract_cover_from_epub, ZipFile. rewrite Hfs.
  cbv beta iota delta [bindM lift app].
  destruct (extract_cover_from_zip epub_zip) as [t [v|e|]]; try reflexivity.
  unfold try_except. destruct (isinstance e BadZipFile); reflexivity.
Qed.

End extraction_facts.

(** ** The claims about the resolver *)

Section resolver_theorems.
Import PyStr ET Py ElementPath Pathlib World Script Manifest Samples MoreSamples.
#[local] Arguments findall : simpl never.
#[local] Arguments find : simpl never.
#[local] Arguments method1 : simpl never.


Lemma method1_first_some (root : element) (dir : Path) (metas : list element) :
  forallb unquoted metas = true ->
  method1 root dir metas
  = Val (option_map (joined dir) (first_some (referenced_href root) metas)).
Proof.
  induction metas as [|m metas IH]; [reflexivity|]. simpl.
  intros H. apply andb_prop in H as [Hm Hmetas].
  rewrite (method1_cons _ _ _ _ Hm).
  destruct (referenced_href root m); [reflexivity | now apply IH].
Qed.

Lemma find_none (A : Type) (p : A -> bool) (l : list A) :
  forallb (fun a => negb (p a)) l = true -> List.find p l = None.
Proof.
  intros H. rewrite <- (List.app_nil_r l). now rewrite find_app_skip.
Qed.

Lemma find_first (A : Type) (p : A -> bool) (pre post : list A) (a : A) :
  forallb (fun a => negb (p a)) pre = true -> p a = true ->
  List.find p (pre ++ a :: post) = Some a.
Proof. intros Hpre Ha. rewrite find_app_skip by exact Hpre. simpl. now rewrite Ha. Qed.

(** The resolver when heuristics 1 and 2 yield nothing. *)
Lemma resolver_from_method3 (root : element) (dir : Path) :
  forallb (leads_nowhere root) (cover_metas root) = true ->
  first_some href_of (cover_image_items root) = None ->
  find_cover_image_in_opf (Parsed root) dir
  = lift match List.find looks_like_cover (items root) with
         | Some item =>
             match get item "href" with
             | Some href => Val (Some (joined dir href))
             | None =>
                 raise TypeError "unsupported operand type(s) for /: 'PosixPath' and 'NoneType'"
             end
         | None => raise SyntaxError "invalid predicate"
         end.
Proof.
  intros H1 H2. rewrite find_cover_image_in_opf_lift, try_block_spec.
  rewrite (method1_none _ _ _ H1). cbv beta iota delta [bind].
  unfold after_method1. now rewrite H2.
Qed.

(** The sample archives are packaged around their package files. *)
Lemma novel_packaged (cover : list (string * entry)) (package : element) :
  packaged (epub "OEBPS/content.opf" package cover) "OEBPS/content.opf" (Parsed package).
Proof.
  exists (xml_entry (container "OEBPS/content.opf")), (container "OEBPS/content.opf").
  exists (Element "{urn:oasis:names:tc:opendocument:xmlns:container}rootfile"
            [("full-path", "OEBPS/content.opf");
             ("media-type", "application/oebps-package+xml")] []).
  exists (xml_entry package).
  unfold epub. simpl. repeat split.
  - apply lookup_insert_eq.
  - rewrite lookup_insert_ne by discriminate. apply lookup_insert_eq.
Qed.




(** C4, as the code has it. In every manifest whose cover ids hold
    no double quote, each heuristic tries its elements in document
    order and uses the first that leads to an href: heuristic 1 passes
    over a [meta] element without content, naming no item or naming an
    item without href, and goes on to the next one; heuristic 2 passes
    over an item without href; heuristic 3 stops at the first item that
    matches. *)
Theorem first_element_leading_to_href_wins (root : element) (dir : Path) :
  forallb unquoted (cover_metas root) = true ->
  find_cover_image_in_opf (Parsed root) dir
  = lift match first_some (referenced_href root) (cover_metas root) with
         | Some href => Val (Some (joined dir href))
         | None =>
             match first_some href_of (cover_image_items root) with
             | Some href => Val (Some (joined dir href))
             | None =>
                 match List.find looks_like_cover (items root) with
                 | Some item =>
                     match get item "href" with
                     | Some href => Val (Some (joined dir href))
                     | None =>
                         raise TypeError
                           "unsupported operand type(s) for /: 'PosixPath' and 'NoneType'"
                     end
                 | None => raise SyntaxError "invalid predicate"
                 end
             end
         end.
Proof.
  intros Hq. rewrite find_cover_image_in_opf_lift, try_block_spec.
  rewrite (method1_first_some _ _ _ Hq).
  destruct (first_some (referenced_href root) (cover_metas root)); reflexivity.
Qed.

Lemma first_element_leading_to_href_wins_witness :
  find_cover_image_in_opf (Parsed two_metas) opf_dir
  = ([], Val (Some "OEBPS/images/front.jpg")).
Proof.
  exact (first_element_leading_to_href_wins two_metas opf_dir eq_refl).
Defined.

(** C4, as stated, fails: the first [meta] element named [cover] names
    no item, and heuristic 1 returns the href that the second one leads
    to. *)
Lemma later_cover_meta_is_consulted :
  cover_metas two_metas = [meta "cover" "missing"; meta "cover" "img1"]
  /\ referenced_href two_metas (meta "cover" "missing") = None
  /\ method1 two_metas opf_dir (cover_metas two_metas)
     = Val (Some "OEBPS/images/front.jpg")
  /\ find_cover_image_in_opf (Parsed two_metas) opf_dir
     = ([], Val (Some "OEBPS/images/front.jpg")).
Proof. repeat split; reflexivity. Qed.

(** C3, as the code has it. When heuristics 1 and 2 yield nothing,
    heuristic 3 takes the first item in document order whose href or id
    holds [cover] (case-insensitive) and whose media type holds
    [image], and returns its href, when it has one, joined to the
    directory of the package file; and whatever path heuristic 3
    returns is the href of an item with [cover] in its href or id and
    [image] in its media type. *)
Theorem cover_named_image_item_is_returned (root : element) (dir : Path) :
  forallb (leads_nowhere root) (cover_metas root) = true ->
  first_some href_of (cover_image_items root) = None ->
  (forall (pre post : list element) (item : element) (href : string),
     items root = pre ++ item :: post ->
     forallb (fun i => negb (looks_like_cover i)) pre = true ->
     contains "cover" (lower (get_default item "href" ""))
     || contains "cover" (lower (get_default item "id" "")) = true ->
     contains "image" (get_default item "media-type" "") = true ->
     get item "href" = Some href ->
     find_cover_image_in_opf (Parsed root) dir = ([], Val (Some (joined dir href))))
  /\ (forall p : string,
        method3 dir (items root) = Val (Some p) ->
        exists (item : element) (href : string),
          In item (items root)
          /\ contains "cover" (lower (get_default item "href" ""))
             || contains "cover" (lower (get_default item "id" "")) = true
          /\ contains "image" (get_default item "media-type" "") = true
          /\ get item "href" = Some href
          /\ p = joined dir href).
Proof.
  intros H1 H2. split.
  - intros pre post item href Hitems Hpre Hcover Himage Hhref.
    assert (Hlooks : looks_like_cover item = true).
    { unfold looks_like_cover. now rewrite Hcover, Himage. }
    rewrite (resolver_from_method3 _ _ H1 H2).
    rewrite Hitems, (find_first _ _ _ _ _ Hpre Hlooks), Hhref. reflexivity.
  - intros p. rewrite method3_spec.
    destruct (List.find looks_like_cover (items root)) as [item|] eqn:Hfind;
      [|discriminate].
    apply List.find_some in Hfind as [Hin Hlooks].
    destruct (get item "href") as [href|] eqn:Hhref; [|discriminate].
    intros [= <-]. exists item, href.
    unfold looks_like_cover in Hlooks. apply andb_prop in Hlooks as [Hcover Himage].
    auto.
Qed.

Lemma cover_named_image_item_is_returned_witness :
  find_cover_image_in_opf (Parsed drawing_first) opf_dir
  = ([], Val (Some "OEBPS/cover.odi")).
Proof.
  exact (proj1 (cover_named_image_item_is_returned drawing_first opf_dir eq_refl eq_refl)
           [] [item "cover-img" "images/cover.jpg" "image/jpeg"]
           (item "cover-odi" "cover.odi" "application/vnd.oasis.opendocument.image")
           "cover.odi" eq_refl eq_refl eq_refl eq_refl eq_refl).
Defined.

(** C3, as stated, fails: the manifest holds an item named after a
    cover whose media type starts with [image], yet heuristic 3 selects
    an earlier item whose media type does not start with [image], and
    returns its href. *)
Lemma selected_item_need_not_start_with_image :
  In (item "cover-img" "images/cover.jpg" "image/jpeg") (items drawing_first)
  /\ startswith "image" "image/jpeg" = true
  /\ List.find looks_like_cover (items drawing_first)
     = Some (item "cover-odi" "cover.odi" "application/vnd.oasis.opendocument.image")
  /\ startswith "image" "application/vnd.oasis.opendocument.image" = false
  /\ find_cover_image_in_opf (Parsed drawing_first) opf_dir
     = ([], Val (Some "OEBPS/cover.odi")).
Proof. repeat split; try reflexivity. right. left. reflexivity. Qed.

(** C1, against the code. When no [meta] element named [cover] leads
    to an href, no item has [properties="cover-image"] and no item is
    named after a cover, the resolver does not return the href of the
    first item whose media type starts with [image/]: the path of
    method 4 uses [starts-with], which ElementPath does not know, and
    the [SyntaxError] leaves the resolver. *)
Theorem first_image_is_not_returned
  (root : element) (dir : Path) (item : element) (href : string) :
  forallb (leads_nowhere root) (cover_metas root) = true ->
  cover_image_items root = [] ->
  forallb (fun i => negb (looks_like_cover i)) (items root) = true ->
  List.find (fun i => startswith "image/" (get_default i "media-type" "")) (items root)
  = Some item ->
  get item "href" = Some href ->
  find_cover_image_in_opf (Parsed root) dir = ([], raise SyntaxError "invalid predicate")
  /\ find_cover_image_in_opf (Parsed root) dir <> ([], Val (Some (joined dir href))).
Proof.
  intros H1 H2 H3 _ _.
  assert (H : find_cover_image_in_opf (Parsed root) dir
              = ([], raise SyntaxError "invalid predicate")).
  { rewrite resolver_from_method3; [|exact H1|now rewrite H2].
    now rewrite (find_none _ _ _ H3). }
  split; [exact H|]. rewrite H. discriminate.
Qed.

Lemma first_image_is_not_returned_witness :
  find_cover_image_in_opf (Parsed picture_book) opf_dir
  = ([], raise SyntaxError "invalid predicate").
Proof.
  exact (proj1 (first_image_is_not_returned picture_book opf_dir
                  (item "page1" "images/page1.png" "image/png") "images/page1.png"
                  eq_refl eq_refl eq_refl eq_refl eq_refl)).
Defined.

End resolver_theorems.

(** ** The claims about a run *)

Section run_theorems.
Import PyStr ET Py ElementPath Pathlib World Script Manifest Samples.
Variable thumbnail_size : Z * Z -> Z * Z -> Z * Z.

Lemma exists_lookup (fs : filesystem) (p : Path) (f : node) :
  fs !! str p = Some f -> exists_ fs p = true.
Proof. unfold exists_. now intros ->. Qed.

(** A run that gets as far as [extract_cover_from_epub] and is handed
    [None]. *)
Lemma main_no_cover (prog arg : string) (fs : filesystem) (t : list event) :
  exists_ fs (parse arg) = true ->
  lower (suffix (parse arg)) = ".epub" ->
  extract_cover_from_epub fs (parse arg) = (t, Val None) ->
  main thumbnail_size [prog; arg] fs
  = (Print ("Processing: " +:+ str (parse arg)) :: t ++ [Print "Failed to extract cover image"],
     fs, sys_exit 1).
Proof.
  intros Hex Hsuf Hext. unfold main. rewrite Hex, Hsuf, Hext. reflexivity.
Qed.

(** C9. An input that exists, has the extension [.epub] and is not a
    ZIP archive: the run reports that it is not a valid EPUB/ZIP file,
    leaves the file system as it is and exits with code 1, which is not
    an unhandled exception. *)
Theorem not_a_zip_archive_exits_1 (prog arg : string) (fs : filesystem) (f : node) :
  fs !! str (parse arg) = Some f ->
  not_zip f = true ->
  lower (suffix (parse arg)) = ".epub" ->
  main thumbnail_size [prog; arg] fs
  = ([Print ("Processing: " +:+ str (parse arg));
      Print ("Error: " +:+ str (parse arg) +:+ " is not a valid EPUB/ZIP file");
      Print "Failed to extract cover image"],
     fs, sys_exit 1).
Proof.
  intros Hf Hnz Hsuf.
  rewrite (main_no_cover prog arg fs
             [Print ("Error: " +:+ str (parse arg) +:+ " is not a valid EPUB/ZIP file")]);
    [reflexivity | eapply exists_lookup, Hf | exact Hsuf |].
  unfold extract_cover_from_epub, ZipFile. rewrite Hf.
  destruct f; try discriminate; reflexivity.
Qed.

(** The resolver prints only when it answers [None]. *)
Lemma resolver_trace (opf_content : document) (dir : Path)
  (t : list event) (r : result (option string)) :
  find_cover_image_in_opf opf_content dir = (t, r) -> t = [] \/ r = Val None.
Proof.
  destruct opf_content as [err|root].
  - intros [= <- <-]. now right.
  - rewrite find_cover_image_in_opf_lift. intros [= <- _]. now left.
Qed.

Lemma main_of_archive (prog arg : string) (fs : filesystem) (epub_zip : archive)
  (t : list event) :
  fs !! str (parse arg) = Some (ZipArchive epub_zip) ->
  lower (suffix (parse arg)) = ".epub" ->
  extract_cover_from_epub fs (parse arg) = (t, Val None) ->
  main thumbnail_size [prog; arg] fs
  = (Print ("Processing: " +:+ str (parse arg)) :: t ++ [Print "Failed to extract cover image"],
     fs, sys_exit 1).
Proof. intros Hfs. apply main_no_cover. eapply exists_lookup, Hfs. Qed.

(** C10. The manifest resolves a cover path, and the archive holds no
    member of that name once backslashes are slashes: the run asks the
    archive for the container, the package file and that one path,
    reports the path as not found and exits with code 1; no
    conventional path is tried. And whenever the warning that opens
    the fallback is printed, the resolver has answered [None]. *)
Theorem missing_cover_member_exits_1
  (prog arg : string) (fs : filesystem) (epub_zip : archive)
  (opf_path : string) (opf_content : document) :
  fs !! str (parse arg) = Some (ZipArchive epub_zip) ->
  lower (suffix (parse arg)) = ".epub" ->
  packaged epub_zip opf_path opf_content ->
  (forall (t : list event) (cover_path : string),
     find_cover_image_in_opf opf_content (parent (parse opf_path))
     = (t, Val (Some cover_path)) ->
     epub_zip !! replace BS "/" cover_path = None ->
     main thumbnail_size [prog; arg] fs
     = ([Print ("Processing: " +:+ str (parse arg));
         ZipRead "META-INF/container.xml";
         ZipRead opf_path;
         ZipRead (replace BS "/" cover_path);
         Print ("Error: Cover image not found at path: " +:+ replace BS "/" cover_path);
         Print "Failed to extract cover image"],
        fs, sys_exit 1))
  /\ (In (Print "Warning: Could not find cover image in OPF manifest, trying common locations...")
        (fst (extract_cover_from_zip epub_zip)) ->
      exists t, find_cover_image_in_opf opf_content (parent (parse opf_path)) = (t, Val None)).
Proof.
  intros Hfs Hsuf Hpack. split.
  - intros t p Hfind Hnone.
    assert (Hp : p <> EmptyString).
    { destruct (resolved_joined _ _ _ _ Hfind) as [href ->].
      apply str_nonempty, joinpath_wf, parent_wf, parse_wf. }
    destruct (resolver_trace _ _ _ _ Hfind) as [-> | [=]].
    rewrite (main_of_archive prog arg fs epub_zip
               [ZipRead "META-INF/container.xml"; ZipRead opf_path;
                ZipRead (replace BS "/" p);
                Print ("Error: Cover image not found at path: " +:+ replace BS "/" p)]);
      [reflexivity | exact Hfs | exact Hsuf |].
    rewrite (extract_from_archive _ _ _ Hfs), (extract_packaged _ _ _ Hpack), Hfind.
    cbv beta iota delta [bindM]. rewrite (open_cover_missing _ _ Hp Hnone). reflexivity.
  - rewrite (extract_packaged _ _ _ Hpack).
    destruct (find_cover_image_in_opf opf_content (parent (parse opf_path)))
      as [t [[p|]|e|]] eqn:Hfind; [|eauto| |].
    + assert (Hp : p <> EmptyString).
      { destruct (resolved_joined _ _ _ _ Hfind) as [href ->].
        apply str_nonempty, joinpath_wf, parent_wf, parse_wf. }
      destruct (resolver_trace _ _ _ _ Hfind) as [-> | [=]].
      cbv beta iota delta [bindM].
      unfold open_cover. rewrite (truthy_nonempty p Hp). unfold zip_read, Image_open.
      cbv beta iota delta [bindM try_except].
      destruct (epub_zip !! replace BS "/" p) as [data|]; [destruct (picture data)|];
        simpl; intuition discriminate.
    + destruct (resolver_trace _ _ _ _ Hfind) as [-> | [=]].
      simpl; intuition discriminate.
    + destruct (resolver_trace _ _ _ _ Hfind) as [-> | [=]].
      simpl; intuition discriminate.
Qed.

(** C2, against the code. An archive packaged around a well-formed
    manifest in which heuristics 1 to 3 find nothing, an empty manifest
    for one: the fallback is not reached. The [SyntaxError] of method 4
    ends [extract_cover_from_epub], no conventional path is asked of
    the archive whatever it holds, and the run exits with code 1. *)
Theorem fallback_is_not_reached
  (prog arg : string) (fs : filesystem) (epub_zip : archive)
  (opf_path : string) (root : element) :
  fs !! str (parse arg) = Some (ZipArchive epub_zip) ->
  lower (suffix (parse arg)) = ".epub" ->
  packaged epub_zip opf_path (Parsed root) ->
  forallb (leads_nowhere root) (cover_metas root) = true ->
  first_some href_of (cover_image_items root) = None ->
  forallb (fun i => negb (looks_like_cover i)) (items root) = true ->
  main thumbnail_size [prog; arg] fs
  = ([Print ("Processing: " +:+ str (parse arg));
      ZipRead "META-INF/container.xml";
      ZipRead opf_path;
      Print "Error extracting cover: invalid predicate";
      Print "Failed to extract cover image"],
     fs, sys_exit 1).
Proof.
  intros Hfs Hsuf Hpack H1 H2 H3.
  rewrite (main_of_archive prog arg fs epub_zip
             [ZipRead "META-INF/container.xml"; ZipRead opf_path;
              Print "Error extracting cover: invalid predicate"]);
    [reflexivity | exact Hfs | exact Hsuf |].
  rewrite (extract_from_archive _ _ _ Hfs), (extract_packaged _ _ _ Hpack).
  rewrite (resolver_from_method3 _ _ H1 H2), (find_none _ _ _ H3). reflexivity.
Qed.

Lemma thumbnail_mode (im : image) (size : Z * Z) :
  mode (thumbnail thumbnail_size im size) = mode im.
Proof.
  unfold thumbnail. now destruct (thumbnail_size (width im, height im) size).
Qed.

(** What [mkdir(exist_ok=True)] leaves at another path. *)
Lemma mkdir_exist_ok_other (fs fs1 : filesystem) (d : Path) (k : string) :
  mkdir_exist_ok fs d = Val fs1 -> k <> str d -> fs1 !! k = fs !! k.
Proof.
  unfold mkdir_exist_ok. destruct (fs !! str d) as [[]|] eqn:E; try discriminate.
  - now intros [= <-].
  - intros [= <-] Hk. now rewrite lookup_insert_ne.
Qed.

Lemma mkdir_exist_ok_dir (fs fs1 : filesystem) (d : Path) :
  mkdir_exist_ok fs d = Val fs1 -> fs1 !! str d = Some Dir.
Proof.
  unfold mkdir_exist_ok. destruct (fs !! str d) as [[]|] eqn:E; try discriminate.
  - now intros [= <-].
  - intros [= <-]. apply lookup_insert_eq.
Qed.

(** A path that exists is still there, unchanged, after [mkdir]. *)
Lemma mkdir_exist_ok_keeps (fs fs1 : filesystem) (d : Path) (k : string) (f : node) :
  mkdir_exist_ok fs d = Val fs1 -> fs !! k = Some f -> fs1 !! k = Some f.
Proof.
  unfold mkdir_exist_ok. destruct (fs !! str d) as [[]|] eqn:E; try discriminate.
  - now intros [= <-].
  - intros [= <-] Hk. rewrite lookup_insert_ne; [exact Hk | congruence].
Qed.

(** [extract_cover_from_epub] looks at the file system only at the
    path it is given. *)
Lemma extract_cover_from_epub_ext (fs fs1 : filesystem) (p : Path) :
  fs1 !! str p = fs !! str p ->
  extract_cover_from_epub fs1 p = extract_cover_from_epub fs p.
Proof. intros H. unfold extract_cover_from_epub, ZipFile. now rewrite H. Qed.

(** C8. A run that extracts a cover image and finds no thumbnail in
    place saves a PNG whose mode is RGB or RGBA: the mode of the cover
    when that is RGB or RGBA, and RGB otherwise. *)
Theorem saved_thumbnail_is_rgb_or_rgba
  (prog arg : string) (fs fs1 : filesystem) (t : list event) (cover_image : image) :
  exists_ fs (parse arg) = true ->
  lower (suffix (parse arg)) = ".epub" ->
  extract_cover_from_epub fs (parse arg) = (t, Val (Some cover_image)) ->
  mkdir_exist_ok fs (parent (parse arg) </> "thumb") = Val fs1 ->
  exists_ fs1 (thumbnail_path (parse arg)) = false ->
  exists (t' : list event) (saved : image),
    main thumbnail_size [prog; arg] fs
    = (t', <[str (thumbnail_path (parse arg)) := ImageFile "PNG" saved]> fs1, returned)
    /\ (mode saved = "RGB" \/ mode saved = "RGBA")
    /\ mode saved
       = if String.eqb (mode cover_image) "RGB" || String.eqb (mode cover_image) "RGBA"
         then mode cover_image else "RGB".
Proof.
  intros Hex Hsuf Hext Hmk Hth. unfold thumbnail_path in Hth.
  unfold main. rewrite Hex, Hsuf, Hext, Hmk. cbn [negb]. rewrite Hth.
  eexists. eexists. split; [reflexivity|]. rewrite thumbnail_mode.
  destruct (String.eqb (mode cover_image) "RGB") eqn:E1;
    [apply String.eqb_eq in E1; auto|].
  destruct (String.eqb (mode cover_image) "RGBA") eqn:E2;
    [apply String.eqb_eq in E2; auto|].
  auto.
Qed.

(** C6, as the code has it. When a cover image is extracted and the
    thumbnail is already in its directory, the run exits with code 0
    and leaves the file system as it is. When no cover image can be
    extracted, the run reports that and exits with code 1, whether the
    thumbnail is in place or not: it is not looked for. No run changes
    a thumbnail that is in place. So a second run after one that saved
    the thumbnail exits with code 0 and changes nothing. *)
Theorem existing_thumbnail_is_kept (prog arg : string) (fs : filesystem) :
  (forall (t : list event) (cover_image : image),
     exists_ fs (parse arg) = true ->
     lower (suffix (parse arg)) = ".epub" ->
     extract_cover_from_epub fs (parse arg) = (t, Val (Some cover_image)) ->
     fs !! str (parent (parse arg) </> "thumb") = Some Dir ->
     exists_ fs (thumbnail_path (parse arg)) = true ->
     main thumbnail_size [prog; arg] fs
     = (Print ("Processing: " +:+ str (parse arg)) :: t ++
          [Print ("Thumbnail already exists:  skipping:  "
                  +:+ str (thumbnail_path (parse arg)))],
        fs, sys_exit 0))
  /\ (forall t : list event,
        exists_ fs (parse arg) = true ->
        lower (suffix (parse arg)) = ".epub" ->
        extract_cover_from_epub fs (parse arg) = (t, Val None) ->
        main thumbnail_size [prog; arg] fs
        = (Print ("Processing: " +:+ str (parse arg)) :: t ++
             [Print "Failed to extract cover image"],
           fs, sys_exit 1))
  /\ (forall (t1 : list event) (fs1 : filesystem) (st : status) (f : node),
        main thumbnail_size [prog; arg] fs = (t1, fs1, st) ->
        fs !! str (thumbnail_path (parse arg)) = Some f ->
        fs1 !! str (thumbnail_path (parse arg)) = Some f)
  /\ (forall (t1 : list event) (fs1 : filesystem),
        main thumbnail_size [prog; arg] fs = (t1, fs1, returned) ->
        exists t2, main thumbnail_size [prog; arg] fs1 = (t2, fs1, sys_exit 0)).
Proof.
  unfold thumbnail_path. repeat split.
  - intros t im Hex Hsuf Hext Hdir Hth.
    unfold main. rewrite Hex, Hsuf, Hext. cbn [negb].
    unfold mkdir_exist_ok. rewrite Hdir, Hth. reflexivity.
  - intros t. apply main_no_cover.
  - intros t1 fs1 st f Hmain Hf. unfold main in Hmain.
    destruct (exists_ fs (parse arg)); cbn [negb] in Hmain;
      [|now injection Hmain as _ <- _].
    destruct (lower (suffix (parse arg)) =? ".epub")%string; cbn [negb] in Hmain;
      [|now injection Hmain as _ <- _].
    destruct (extract_cover_from_epub fs (parse arg)) as [t [[im|]|e|]];
      try (now injection Hmain as _ <- _).
    destruct (mkdir_exist_ok fs (parent (parse arg) </> "thumb")) as [fs'|e|] eqn:Hmk;
      try (now injection Hmain as _ <- _).
    pose proof (mkdir_exist_ok_keeps _ _ _ _ _ Hmk Hf) as Hf'.
    unfold exists_ in Hmain. rewrite Hf' in Hmain. now injection Hmain as _ <- _.
  - intros t1 fs1 Hmain. unfold main in Hmain.
    destruct (exists_ fs (parse arg)) eqn:Hex; cbn [negb] in Hmain; [|discriminate].
    destruct (lower (suffix (parse arg)) =? ".epub")%string eqn:Hsuf;
      cbn [negb] in Hmain; [|discriminate].
    destruct (extract_cover_from_epub fs (parse arg)) as [t [[im|]|e|]] eqn:Hext;
      try discriminate.
    destruct (mkdir_exist_ok fs (parent (parse arg) </> "thumb")) as [fs'|e|] eqn:Hmk;
      try discriminate.
    destruct (exists_ fs' (parent (parse arg) </> "thumb" </> (name (parse arg) +:+ ".png")))
      eqn:Hth; [discriminate|].
    injection Hmain as _ <-.
    set (th := str (parent (parse arg) </> "thumb" </> (name (parse arg) +:+ ".png"))) in *.
    set (saved := ImageFile "PNG" _).
    unfold exists_ in Hex, Hth. fold th in Hth.
    destruct (fs !! str (parse arg)) as [f|] eqn:Hf; [|discriminate].
    pose proof (mkdir_exist_ok_keeps _ _ _ _ _ Hmk Hf) as Hf'.
    assert (Hne : str (parse arg) <> th).
    { intros E. rewrite E in Hf'. now rewrite Hf' in Hth. }
    assert (Hp : <[th := saved]> fs' !! str (parse arg) = fs !! str (parse arg)).
    { rewrite lookup_insert_ne by congruence. now rewrite Hf', Hf. }
    assert (Hd : <[th := saved]> fs' !! str (parent (parse arg) </> "thumb") = Some Dir).
    { rewrite lookup_insert_ne by (symmetry; apply thumbnail_not_thumb_dir).
      eapply mkdir_exist_ok_dir, Hmk. }
    unfold main, exists_. rewrite Hp, Hf, Hsuf. cbn [negb].
    rewrite (extract_cover_from_epub_ext _ _ _ Hp), Hext.
    unfold mkdir_exist_ok. rewrite Hd. fold th. rewrite lookup_insert_eq.
    eexists. reflexivity.
Qed.

End run_theorems.

Section run_witnesses.
Import PyStr ET Py ElementPath Pathlib World Script Manifest Samples.

Lemma not_a_zip_archive_exits_1_witness :
  main fill_box argv (shelf OtherFile)
  = ([Print "Processing: books/novel.epub";
      Print "Error: books/novel.epub is not a valid EPUB/ZIP file";
      Print "Failed to extract cover image"],
     shelf OtherFile, sys_exit 1).
Proof.
  exact (not_a_zip_archive_exits_1 fill_box "extract_epub_thumbnail.py" "books/novel.epub"
           (shelf OtherFile) OtherFile eq_refl eq_refl eq_refl).
Defined.

Lemma missing_cover_member_exits_1_witness :
  main fill_box argv (shelf (ZipArchive broken_epub))
  = ([Print "Processing: books/novel.epub";
      ZipRead "META-INF/container.xml";
      ZipRead "OEBPS/content.opf";
      ZipRead "OEBPS/images/cover.jpg";
      Print "Error: Cover image not found at path: OEBPS/images/cover.jpg";
      Print "Failed to extract cover image"],
     shelf (ZipArchive broken_epub), sys_exit 1).
Proof.
  exact (proj1 (missing_cover_member_exits_1 fill_box
                  "extract_epub_thumbnail.py" "books/novel.epub"
                  (shelf (ZipArchive broken_epub)) broken_epub
                  "OEBPS/content.opf" (Parsed novel)
                  eq_refl eq_refl (novel_packaged [] novel))
           [] "OEBPS/images/cover.jpg" eq_refl eq_refl).
Defined.

(** The archive holds [cover.jpg], the first conventional path, and
    the run does not ask for it. *)
Lemma fallback_is_not_reached_witness :
  bare_epub !! "cover.jpg" = Some (image_entry jpeg)
  /\ main fill_box argv (shelf (ZipArchive bare_epub))
     = ([Print "Processing: books/novel.epub";
         ZipRead "META-INF/container.xml";
         ZipRead "OEBPS/content.opf";
         Print "Error extracting cover: invalid predicate";
         Print "Failed to extract cover image"],
        shelf (ZipArchive bare_epub), sys_exit 1).
Proof.
  split; [reflexivity|].
  exact (fallback_is_not_reached fill_box
           "extract_epub_thumbnail.py" "books/novel.epub"
           (shelf (ZipArchive bare_epub)) bare_epub
           "OEBPS/content.opf" (package [] [])
           eq_refl eq_refl (novel_packaged _ _) eq_refl eq_refl eq_refl).
Defined.

(** A CMYK cover is saved as RGB. *)
Lemma saved_thumbnail_is_rgb_or_rgba_witness :
  exists (t' : list event) (saved : image),
    main fill_box argv (shelf (ZipArchive cmyk_epub))
    = (t', <["books/thumb/novel.epub.png" := ImageFile "PNG" saved]>
             (<["books/thumb" := Dir]> (shelf (ZipArchive cmyk_epub))), returned)
    /\ (mode saved = "RGB" \/ mode saved = "RGBA")
    /\ mode saved = "RGB".
Proof.
  exact (saved_thumbnail_is_rgb_or_rgba fill_box
           "extract_epub_thumbnail.py" "books/novel.epub"
           (shelf (ZipArchive cmyk_epub))
           (<["books/thumb" := Dir]> (shelf (ZipArchive cmyk_epub)))
           [ZipRead "META-INF/container.xml"; ZipRead "OEBPS/content.opf";
            ZipRead "OEBPS/images/cover.jpg"]
           cmyk_jpeg eq_refl eq_refl eq_refl eq_refl eq_refl).
Defined.

(** The thumbnail of the novel is in place: the run reads the cover
    and leaves everything as it is. With the thumbnail in place and
    an empty file for a book, the run fails as it does without the
    thumbnail. *)
Lemma existing_thumbnail_is_kept_witness :
  main fill_box argv (shelf_with_thumbnail (ZipArchive novel_epub))
  = ([Print "Processing: books/novel.epub";
      ZipRead "META-INF/container.xml";
      ZipRead "OEBPS/content.opf";
      ZipRead "OEBPS/images/cover.jpg";
      Print "Thumbnail already exists:  skipping:  books/thumb/novel.epub.png"],
     shelf_with_thumbnail (ZipArchive novel_epub), sys_exit 0)
  /\ main fill_box argv (shelf_with_thumbnail OtherFile)
     = ([Print "Processing: books/novel.epub";
         Print "Error: books/novel.epub is not a valid EPUB/ZIP file";
         Print "Failed to extract cover image"],
        shelf_with_thumbnail OtherFile, sys_exit 1).
Proof.
  split.
  - exact (proj1 (existing_thumbnail_is_kept fill_box
                    "extract_epub_thumbnail.py" "books/novel.epub"
                    (shelf_with_thumbnail (ZipArchive novel_epub)))
             [ZipRead "META-INF/container.xml"; ZipRead "OEBPS/content.opf";
              ZipRead "OEBPS/images/cover.jpg"]
             jpeg eq_refl eq_refl eq_refl eq_refl eq_refl).
  - exact (proj1 (proj2 (existing_thumbnail_is_kept fill_box
                           "extract_epub_thumbnail.py" "books/novel.epub"
                           (shelf_with_thumbnail OtherFile)))
             [Print "Error: books/novel.epub is not a valid EPUB/ZIP file"]
             eq_refl eq_refl eq_refl).
Defined.

(** C6, as stated, fails: the thumbnail is in place, the manifest
    names a cover that the archive does not hold, and the run exits
    with code 1, the existence of the thumbnail never looked at. *)
Lemma existing_thumbnail_after_failed_extraction :
  shelf_with_thumbnail (ZipArchive broken_epub) !! "books/thumb/novel.epub.png"
  = Some (ImageFile "PNG" (mkImage "RGB" 112 150))
  /\ str (thumbnail_path (parse "books/novel.epub")) = "books/thumb/novel.epub.png"
  /\ main fill_box argv (shelf_with_thumbnail (ZipArchive broken_epub))
     = ([Print "Processing: books/novel.epub";
         ZipRead "META-INF/container.xml";
         ZipRead "OEBPS/content.opf";
         ZipRead "OEBPS/images/cover.jpg";
         Print "Error: Cover image not found at path: OEBPS/images/cover.jpg";
         Print "Failed to extract cover image"],
        shelf_with_thumbnail (ZipArchive broken_epub), sys_exit 1).
Proof. repeat split; reflexivity. Qed.

End run_witnesses.

(** * Further properties of the script *)

(** ** The resolver *)

Section more_resolver.
Import PyStr ET Py ElementPath Pathlib World Script Manifest Samples.
Import Observations MoreSamples.
#[local] Arguments findall : simpl never.
#[local] Arguments find : simpl never.
#[local] Arguments method1 : simpl never.

Lemma first_some_skip {A B : Type} (f : A -> option B) (pre rest : list A) :
  forallb (fun a => match f a with Some _ => false | None => true end) pre = true ->
  first_some f (pre ++ rest) = first_some f rest.
Proof.
  induction pre as [|a pre IH]; [reflexivity|]. simpl.
  intros H. apply andb_prop in H as [Ha Hpre].
  destruct (f a); [discriminate | now apply IH].
Qed.

(** X1. Method 2: when no [meta] element named [cover] leads to an
    href, the resolver returns the href of the first item with
    [properties="cover-image"] that has a non-empty href, joined to the
    directory of the package file; items of that kind without href
    before it are passed over. *)
Theorem cover_image_property_is_used
  (root : element) (dir : Path) (pre post : list element) (item : element) (href : string) :
  forallb (leads_nowhere root) (cover_metas root) = true ->
  cover_image_items root = pre ++ item :: post ->
  forallb (fun i => match href_of i with Some _ => false | None => true end) pre = true ->
  href_of item = Some href ->
  find_cover_image_in_opf (Parsed root) dir = ([], Val (Some (joined dir href))).
Proof.
  intros H1 Hitems Hpre Hhref.
  rewrite find_cover_image_in_opf_lift, try_block_spec, (method1_none _ _ _ H1).
  cbv beta iota delta [bind]. unfold after_method1.
  rewrite Hitems, (first_some_skip _ _ _ Hpre). simpl. now rewrite Hhref.
Qed.

Lemma cover_image_property_is_used_witness :
  find_cover_image_in_opf (Parsed marked_cover) opf_dir
  = ([], Val (Some "OEBPS/images/front.jpg")).
Proof.
  exact (cover_image_property_is_used marked_cover opf_dir [] []
           (item_with_properties "front" "images/front.jpg" "image/jpeg" "cover-image")
           "images/front.jpg" eq_refl eq_refl eq_refl eq_refl).
Defined.

(** X2. The resolver answers [None] exactly when the package file is
    not well-formed XML, and then it has printed one warning with the
    parser's message; on a well-formed document it returns a path or
    raises. *)
Theorem none_exactly_when_malformed
  (opf_content : document) (dir : Path) (t : list event) :
  find_cover_image_in_opf opf_content dir = (t, Val None)
  <-> exists err, opf_content = Malformed err
                  /\ t = [Print ("Warning: Could not parse OPF file: " +:+ err)].
Proof.
  split.
  - destruct opf_content as [err|root].
    + intros [= <-]. now exists err.
    + intros H. now apply parsed_never_none in H.
  - intros (err & -> & ->). reflexivity.
Qed.

Lemma filter_none {A : Type} (p : A -> bool) (l : list A) :
  (forall a, In a l -> p a = false) -> List.filter p l = [].
Proof.
  induction l as [|a l IH]; [reflexivity|]. simpl. intros H.
  rewrite (H a (or_introl eq_refl)). apply IH. intros b Hb. apply H. now right.
Qed.

(** X3. The resolver looks only at elements of the OPF namespace: a
    document with no [item] and no [meta] element of that namespace
    gets no answer from heuristics 1 to 3, whatever its elements hold,
    and ends in the [SyntaxError] of method 4. *)
Theorem other_namespaces_are_not_seen (root : element) (dir : Path) :
  (forall e, In e (descendants root) ->
             ET.tag e <> opf "item" /\ ET.tag e <> opf "meta") ->
  find_cover_image_in_opf (Parsed root) dir = ([], raise SyntaxError "invalid predicate").
Proof.
  intros H.
  assert (Hitems : items root = []).
  { apply filter_none. intros e He. apply String.eqb_neq. now apply H. }
  assert (Hmetas : cover_metas root = []).
  { unfold cover_metas. rewrite (filter_none (has_tag (opf "meta"))); [reflexivity|].
    intros e He. apply String.eqb_neq. now apply H. }
  rewrite resolver_from_method3.
  - now rewrite Hitems.
  - now rewrite Hmetas.
  - unfold cover_image_items. now rewrite Hitems.
Qed.

Lemma other_namespaces_are_not_seen_witness :
  find_cover_image_in_opf (Parsed bare_tags) opf_dir
  = ([], raise SyntaxError "invalid predicate").
Proof.
  apply (other_namespaces_are_not_seen bare_tags opf_dir).
  intros e He. vm_compute in He.
  repeat (destruct He as [<- | He]; [split; discriminate|]). contradiction.
Defined.

(** X4. Method 3 does not test the href it joins: when heuristics 1
    and 2 yield nothing and the first item named after a cover and
    typed as an image has no [href] attribute, [opf_dir / None] raises
    [TypeError] and the resolver ends there, without a look at the
    items after it. *)
Theorem cover_named_item_without_href_raises
  (root : element) (dir : Path) (pre post : list element) (item : element) :
  forallb (leads_nowhere root) (cover_metas root) = true ->
  first_some href_of (cover_image_items root) = None ->
  items root = pre ++ item :: post ->
  forallb (fun i => negb (looks_like_cover i)) pre = true ->
  looks_like_cover item = true ->
  get item "href" = None ->
  find_cover_image_in_opf (Parsed root) dir
  = ([], raise TypeError "unsupported operand type(s) for /: 'PosixPath' and 'NoneType'").
Proof.
  intros H1 H2 Hitems Hpre Hlooks Hhref.
  rewrite (resolver_from_method3 _ _ H1 H2).
  now rewrite Hitems, (find_first _ _ _ _ _ Hpre Hlooks), Hhref.
Qed.

Lemma cover_named_item_without_href_raises_witness :
  find_cover_image_in_opf (Parsed hrefless_cover) opf_dir
  = ([], raise TypeError "unsupported operand type(s) for /: 'PosixPath' and 'NoneType'").
Proof.
  exact (cover_named_item_without_href_raises hrefless_cover opf_dir [] []
           (Element (opf "item") [("id", "cover"); ("media-type", "image/jpeg")] [])
           eq_refl eq_refl eq_refl eq_refl eq_refl eq_refl).
Defined.

(** X5. Whatever the document, a path the resolver returns is not
    empty and comes without a printed line, so the test [if not
    cover_path] of the caller tells apart exactly the answer [None]. *)
Theorem returned_path_is_not_empty
  (opf_content : document) (opf_path : string) (t : list event) (p : string) :
  find_cover_image_in_opf opf_content (parent (parse opf_path)) = (t, Val (Some p)) ->
  p <> EmptyString /\ t = [] /\ truthy (Some p) = Some p.
Proof.
  intros H.
  assert (Hp : p <> EmptyString).
  { destruct (resolved_joined _ _ _ _ H) as [href ->].
    apply str_nonempty, joinpath_wf, parent_wf, parse_wf. }
  repeat split; [exact Hp | | now apply truthy_nonempty].
  destruct (resolver_trace _ _ _ _ H) as [-> | [=]]. reflexivity.
Qed.

Lemma returned_path_is_not_empty_witness :
  "OEBPS/images/cover.jpg" <> EmptyString
  /\ @nil event = []
  /\ truthy (Some "OEBPS/images/cover.jpg") = Some "OEBPS/images/cover.jpg".
Proof.
  exact (returned_path_is_not_empty (Parsed novel) "OEBPS/content.opf" []
           "OEBPS/images/cover.jpg" eq_refl).
Defined.

(** X6. How the directory and the href compose. With the package
    file at the root of the archive the directory adds nothing: the
    path is the href, normalised. An href that starts with a slash
    replaces the directory, wherever the package file lies. *)
Theorem href_without_directory :
  (forall opf_path href : string,
     mem "/" opf_path = false ->
     joined (parent (parse opf_path)) href = str (parse href))
  /\ (forall (dir : Path) (href : string),
        startswith "/" href = true -> joined dir href = str (parse href)).
Proof.
  split.
  - intros opf_path href Hslash.
    assert (Hparent : parent (parse opf_path) = mkPath EmptyString []).
    { unfold parent, parse. cbn [Pathlib.root Pathlib.names].
      rewrite (split_single _ _ Hslash). f_equal.
      - destruct opf_path as [|c s]; [reflexivity|]. simpl in Hslash.
        apply orb_false_elim in Hslash as [Hc _].
        destruct c as [[] [] [] [] [] [] [] []]; try reflexivity. discriminate.
      - simpl. destruct (keep_name opf_path); reflexivity. }
    unfold joined. rewrite Hparent. unfold joinpath.
    destruct (nonempty (Pathlib.root (parse href))) eqn:E; [reflexivity|].
    cbn [Pathlib.root Pathlib.names app]. unfold str. cbn [Pathlib.root Pathlib.names].
    destruct (Pathlib.root (parse href)); [reflexivity | discriminate].
  - intros dir href Hstart. unfold joined, joinpath.
    assert (E : nonempty (Pathlib.root (parse href)) = true).
    { destruct href as [|c s]; [discriminate|].
      change (startswith "/" (String c s))
        with (Ascii.eqb "/" c && startswith EmptyString s) in Hstart.
      apply andb_prop in Hstart as [Hc _]. apply Ascii.eqb_eq in Hc. subst c.
      unfold parse. cbn [Pathlib.root]. destruct s as [|d [|e s]]; simpl.
      - reflexivity.
      - destruct (Ascii.eqb_spec d "/"); [subst; reflexivity|].
        destruct d as [[] [] [] [] [] [] [] []]; reflexivity.
      - destruct d as [[] [] [] [] [] [] [] []]; try reflexivity.
        destruct e as [[] [] [] [] [] [] [] []]; reflexivity. }
    now rewrite E.
Qed.

Lemma take_while_app (p : ascii -> bool) (a r : string) (x : ascii) :
  all_chars p a = true -> p x = false -> take_while p (a +:+ String x r) = a.
Proof.
  induction a as [|c a IH]; simpl; intros Ha Hx.
  - now rewrite Hx.
  - apply andb_prop in Ha as [Hc Ha]. now rewrite Hc, IH.
Qed.

Lemma name_char_facts (x : ascii) :
  name_char x = true ->
  tag_char x = true /\ Ascii.eqb x ":" = false /\ Ascii.eqb "{" x = false
  /\ forall r, next_token x r
               = Some ((EmptyString, take_while tag_char (String x r)),
                       pred (String.length (take_while tag_char (String x r)))).
Proof.
  destruct x as [[] [] [] [] [] [] [] []]; intros H; vm_compute in H;
    try discriminate H; repeat split; reflexivity.
Qed.

Lemma all_name_chars (s : string) :
  all_chars name_char s = true ->
  all_chars tag_char s = true /\ split_colon s = None.
Proof.
  induction s as [|c s IH]; [now split|].
  change (all_chars name_char (String c s)) with (name_char c && all_chars name_char s).
  intros H. apply andb_prop in H as [Hc Hs].
  destruct (IH Hs) as [IH1 IH2]. destruct (name_char_facts c Hc) as (Ht & Hcolon & _ & _).
  split.
  - change (all_chars tag_char (String c s)) with (tag_char c && all_chars tag_char s).
    now rewrite Ht, IH1.
  - change (split_colon (String c s))
      with (if Ascii.eqb c ":" then Some (EmptyString, s)
            else match split_colon s with
                 | Some (p, u) => Some (String c p, u)
                 | None => None
                 end).
    now rewrite Hcolon, IH2.
Qed.

Lemma split_colon_snoc (s : string) :
  split_colon s = None -> split_colon (s +:+ chr DQ) = None.
Proof.
  induction s as [|c s IH]; [reflexivity|].
  change (split_colon (String c s))
    with (if Ascii.eqb c ":" then Some (EmptyString, s)
          else match split_colon s with
               | Some (p, u) => Some (String c p, u)
               | None => None
               end).
  change (split_colon (String c s +:+ chr DQ))
    with (if Ascii.eqb c ":" then Some (EmptyString, s +:+ chr DQ)
          else match split_colon (s +:+ chr DQ) with
               | Some (p, u) => Some (String c p, u)
               | None => None
               end).
  destruct (Ascii.eqb c ":"); [discriminate|].
  destruct (split_colon s) as [[p u]|]; [discriminate|]. intros _. now rewrite IH.
Qed.

(** An id with a double quote in it, followed by name characters: the
    quote ends the string of the predicate early and the rest of the id
    is one more token in it, which no predicate of ElementPath has. *)
Lemma compile_quoted_id (a b : string) :
  mem DQ a = false -> b <> EmptyString -> all_chars name_char b = true ->
  compile (item_by_id_path (a +:+ String DQ b)) namespaces
  = raise SyntaxError "invalid predicate".
Proof.
  intros Ha Hb Hname. unfold compile. rewrite item_by_id_path_no_slash.
  unfold item_by_id_path, xpath_tokenizer, findall_tokens.
  replace (".//opf:item[@id=" +:+ String DQ (a +:+ String DQ b) +:+ String DQ "]")
    with (".//opf:item[@id=" +:+ String DQ (a +:+ String DQ (b +:+ String DQ "]")))
    by (simpl; now rewrite app_assoc).
  simpl. unfold next_token at 1. simpl. rewrite (quoted_app DQ a _ Ha). simpl.
  rewrite scan_skip_cons.
  destruct b as [|x b]; [congruence|].
  change (all_chars name_char (String x b)) with (name_char x && all_chars name_char b)
    in Hname.
  apply andb_prop in Hname as [Hx Hname].
  destruct (name_char_facts x Hx) as (Htx & Hcolon & Hbrace & Hnext).
  destruct (all_name_chars b Hname) as [Htag Hsplit].
  set (name := String x b +:+ chr DQ).
  assert (Hrun : take_while tag_char (String x (b +:+ String DQ "]")) = name).
  { replace (String x (b +:+ String DQ "]")) with (name +:+ String "]" EmptyString)
      by (unfold name; simpl; now rewrite app_assoc).
    apply take_while_app; [|reflexivity].
    unfold name.
    change (all_chars tag_char (String x b +:+ chr DQ))
      with (tag_char x && all_chars tag_char (b +:+ chr DQ)).
    rewrite Htx. clear -Htag. induction b as [|c b IH]; [reflexivity|].
    change (all_chars tag_char (String c b)) with (tag_char c && all_chars tag_char b)
      in Htag.
    apply andb_prop in Htag as [Hc Htag].
    change (all_chars tag_char (String c b +:+ chr DQ))
      with (tag_char c && all_chars tag_char (b +:+ chr DQ)).
    now rewrite Hc, IH. }
  change (scan (String x b +:+ String DQ "]") 0)
    with (match next_token x (b +:+ String DQ "]") with
          | Some (tok, more) => tok :: scan (b +:+ String DQ "]") more
          | None => scan (b +:+ String DQ "]") 0
          end).
  rewrite Hnext, Hrun.
  replace (Init.Nat.pred (String.length name)) with (S (String.length b))
    by (unfold name; simpl; rewrite app_length; simpl; lia).
  rewrite scan_skip_cons.
  assert (Hsplitn : split_colon name = None).
  { unfold name. apply (split_colon_snoc (String x b)).
    change (split_colon (String x b))
      with (if Ascii.eqb x ":" then Some (EmptyString, b)
            else match split_colon b with
                 | Some (p, u) => Some (String x p, u)
                 | None => None
                 end).
    now rewrite Hcolon, Hsplit. }
  assert (Hplain : nonempty name && negb (startswith "{" name) = true).
  { unfold name.
    change (startswith "{" (String x b +:+ chr DQ))
      with (Ascii.eqb "{" x && startswith EmptyString (b +:+ chr DQ)).
    now rewrite Hbrace. }
  assert (Hne : nonempty name = true) by reflexivity.
  clearbody name.
  change (scan "]" 0) with [("]", EmptyString)].
  unfold resolve_prefixes. rewrite Hplain, Hsplitn.
  cbn [ns_get namespaces lookup_attr nonempty String.eqb Ascii.eqb Bool.eqb].
  unfold compile_from. cbn [String.eqb Ascii.eqb Bool.eqb nonempty negb andb].
  rewrite Hne. reflexivity.
Qed.

(** X7. The id of a [meta] element named [cover] is pasted into the
    path unescaped. When the first such element that is not passed
    over has an id with a double quote followed by name characters, the
    lookup raises [SyntaxError] and the resolver ends there: neither
    the item of that very id nor any later heuristic is tried. *)
Theorem double_quote_in_id_raises
  (root : element) (dir : Path) (pre post : list element) (meta : element) (a b : string) :
  cover_metas root = pre ++ meta :: post ->
  forallb (leads_nowhere root) pre = true ->
  get meta "content" = Some (a +:+ String DQ b) ->
  mem DQ a = false ->
  b <> EmptyString ->
  all_chars name_char b = true ->
  find_cover_image_in_opf (Parsed root) dir = ([], raise SyntaxError "invalid predicate").
Proof.
  intros Hmetas Hpre Hcontent Ha Hb Hname.
  rewrite find_cover_image_in_opf_lift, try_block_spec, Hmetas.
  rewrite (method1_skip _ _ _ _ Hpre). unfold method1; fold method1.
  rewrite Hcontent.
  assert (Htruthy : truthy (Some (a +:+ String DQ b)) = Some (a +:+ String DQ b))
    by (destruct a; reflexivity).
  rewrite Htruthy. unfold find, iterfind.
  now rewrite (compile_quoted_id a b Ha Hb Hname).
Qed.

Lemma double_quote_in_id_raises_witness :
  find_cover_image_in_opf (Parsed quoted_id) opf_dir
  = ([], raise SyntaxError "invalid predicate").
Proof.
  apply (double_quote_in_id_raises quoted_id opf_dir [] []
           (Samples.meta "cover" ("a" +:+ String DQ "b")) "a" "b");
    [reflexivity | reflexivity | reflexivity | reflexivity | discriminate | reflexivity].
Defined.

End more_resolver.

(** ** Reading the archive *)

Section more_extraction.
Import PyStr ET Py ElementPath Pathlib World Script Manifest Samples.
Import Observations MoreSamples.

Lemma probe_absent (epub_zip : archive) (path : string) (rest : list string) :
  absent epub_zip path = true ->
  probe epub_zip (path :: rest)
  = let '(t, r) := probe epub_zip rest in (ZipRead path :: t, r).
Proof.
  unfold absent. intros H. unfold probe; fold probe. unfold zip_read.
  destruct (epub_zip !! path); [discriminate|].
  cbv beta iota delta [bindM try_except raise isinstance cls].
  destruct (probe epub_zip rest). reflexivity.
Qed.

Lemma probe_skip (epub_zip : archive) (pre rest : list string) :
  forallb (absent epub_zip) pre = true ->
  probe epub_zip (pre ++ rest)
  = let '(t, r) := probe epub_zip rest in (map ZipRead pre ++ t, r).
Proof.
  induction pre as [|path pre IH]; intros H.
  - simpl. now destruct (probe epub_zip rest).
  - simpl in H. apply andb_prop in H as [Hpath Hpre].
    rewrite <- List.app_comm_cons, (probe_absent _ _ _ Hpath), (IH Hpre).
    now destruct (probe epub_zip rest).
Qed.

Lemma probe_present (epub_zip : archive) (path : string) (rest : list string)
  (data : entry) :
  epub_zip !! path = Some data ->
  probe epub_zip (path :: rest)
  = ([ZipRead path],
     match picture data with
     | Some im => Val (Some im)
     | None => raise UnidentifiedImageError "cannot identify image file"
     end).
Proof.
  intros H. unfold probe; fold probe. unfold zip_read, Image_open. rewrite H.
  cbv beta iota delta [bindM]. destruct (picture data); reflexivity.
Qed.

(** The start of the [with] block when the package file is not
    well-formed: two reads, two warnings, then the conventional
    paths. *)
Lemma extract_malformed (epub_zip : archive) (opf_path err : string) :
  packaged epub_zip opf_path (Malformed err) ->
  extract_cover_from_zip epub_zip
  = (([ZipRead "META-INF/container.xml"; ZipRead opf_path;
       Print ("Warning: Could not parse OPF file: " +:+ err);
       Print "Warning: Could not find cover image in OPF manifest, trying common locations..."],
      Val tt) ;;;
     found <- probe epub_zip common_paths ;;
     match found with
     | Some im => ret (Some im)
     | None => print "Error: Could not find cover image in EPUB" ;;; ret None
     end).
Proof.
  intros Hpack. rewrite (extract_packaged _ _ _ Hpack).
  unfold find_cover_image_in_opf, open_cover.
  cbv beta iota delta [find_cover_image_in_opf_try fromstring bind lift try_except
                         raise isinstance cls bindM print ret truthy].
  destruct (probe epub_zip common_paths) as [t [[im|]|e|]]; reflexivity.
Qed.

(** X8. The fallback. When the package file is not well-formed XML,
    the archive is asked for the conventional paths in their order, and
    the image at the first of them that the archive holds is returned;
    the paths after it are not asked for. *)
Theorem fallback_returns_first_present
  (epub_zip : archive) (opf_path err : string)
  (pre post : list string) (path : string) (data : entry) (im : image) :
  packaged epub_zip opf_path (Malformed err) ->
  common_paths = pre ++ path :: post ->
  forallb (absent epub_zip) pre = true ->
  epub_zip !! path = Some data ->
  picture data = Some im ->
  extract_cover_from_zip epub_zip
  = ([ZipRead "META-INF/container.xml"; ZipRead opf_path;
      Print ("Warning: Could not parse OPF file: " +:+ err);
      Print "Warning: Could not find cover image in OPF manifest, trying common locations..."]
       ++ map ZipRead pre ++ [ZipRead path],
     Val (Some im)).
Proof.
  intros Hpack Hpaths Hpre Hdata Him.
  rewrite (extract_malformed _ _ _ Hpack), Hpaths, (probe_skip _ _ _ Hpre).
  rewrite (probe_present _ _ _ _ Hdata), Him.
  cbv beta iota delta [bindM ret]. now rewrite List.app_nil_r.
Qed.

Lemma fallback_returns_first_present_witness :
  extract_cover_from_zip (malformed_epub [("images/cover.png", image_entry jpeg)])
  = ([ZipRead "META-INF/container.xml"; ZipRead "OEBPS/content.opf";
      Print "Warning: Could not parse OPF file: mismatched tag: line 3, column 2";
      Print "Warning: Could not find cover image in OPF manifest, trying common locations...";
      ZipRead "cover.jpg"; ZipRead "cover.jpeg"; ZipRead "cover.png";
      ZipRead "images/cover.jpg"; ZipRead "images/cover.jpeg"; ZipRead "images/cover.png"],
     Val (Some jpeg)).
Proof.
  refine (fallback_returns_first_present
            (malformed_epub [("images/cover.png", image_entry jpeg)])
            "OEBPS/content.opf" "mismatched tag: line 3, column 2"
            ["cover.jpg"; "cover.jpeg"; "cover.png"; "images/cover.jpg"; "images/cover.jpeg"]
            _ "images/cover.png" (image_entry jpeg) jpeg _ eq_refl eq_refl eq_refl eq_refl).
  exists (xml_entry (container "OEBPS/content.opf")), (container "OEBPS/content.opf").
  exists (Element "{urn:oasis:names:tc:opendocument:xmlns:container}rootfile"
            [("full-path", "OEBPS/content.opf");
             ("media-type", "application/oebps-package+xml")] []).
  exists (mkEntry (Some (Malformed "mismatched tag: line 3, column 2")) None).
  repeat split; reflexivity.
Defined.

Lemma probe_all_absent (epub_zip : archive) (paths : list string) :
  forallb (absent epub_zip) paths = true ->
  probe epub_zip paths = (map ZipRead paths, Val None).
Proof.
  intros H. rewrite <- (List.app_nil_r paths) at 1.
  rewrite (probe_skip _ _ _ H). simpl. now rewrite List.app_nil_r.
Qed.

(** X9. The fallback, exhausted. When the package file is not
    well-formed XML and the archive holds none of the twelve
    conventional paths, the archive is asked for each of them once, in
    the order of the list, the failure is reported and the answer is
    [None]. *)
Theorem fallback_exhausted (epub_zip : archive) (opf_path err : string) :
  packaged epub_zip opf_path (Malformed err) ->
  forallb (absent epub_zip) common_paths = true ->
  extract_cover_from_zip epub_zip
  = ([ZipRead "META-INF/container.xml"; ZipRead opf_path;
      Print ("Warning: Could not parse OPF file: " +:+ err);
      Print "Warning: Could not find cover image in OPF manifest, trying common locations..."]
       ++ map ZipRead common_paths
       ++ [Print "Error: Could not find cover image in EPUB"],
     Val None).
Proof.
  intros Hpack Habsent.
  rewrite (extract_malformed _ _ _ Hpack), (probe_all_absent _ _ Habsent).
  reflexivity.
Qed.

Lemma malformed_packaged (others : list (string * entry)) :
  packaged (malformed_epub others) "OEBPS/content.opf"
    (Malformed "mismatched tag: line 3, column 2").
Proof.
  exists (xml_entry (container "OEBPS/content.opf")), (container "OEBPS/content.opf").
  exists (Element "{urn:oasis:names:tc:opendocument:xmlns:container}rootfile"
            [("full-path", "OEBPS/content.opf");
             ("media-type", "application/oebps-package+xml")] []).
  exists (mkEntry (Some (Malformed "mismatched tag: line 3, column 2")) None).
  unfold malformed_epub. simpl. repeat split.
  - apply lookup_insert_eq.
  - rewrite lookup_insert_ne by discriminate. apply lookup_insert_eq.
Qed.

Lemma fallback_exhausted_witness :
  reads (fst (extract_cover_from_zip (malformed_epub [])))
  = "META-INF/container.xml" :: "OEBPS/content.opf" :: common_paths
  /\ snd (extract_cover_from_zip (malformed_epub [])) = Val None.
Proof.
  rewrite (fallback_exhausted (malformed_epub []) "OEBPS/content.opf"
             "mismatched tag: line 3, column 2" (malformed_packaged []) eq_refl).
  split; reflexivity.
Defined.

Lemma reads_app (a b : list event) : reads (a ++ b) = reads a ++ reads b.
Proof.
  induction a as [|[line|member] a IH]; simpl; [reflexivity | exact IH | now rewrite IH].
Qed.

Lemma reads_map (l : list string) : reads (map ZipRead l) = l.
Proof. induction l as [|x l IH]; simpl; [reflexivity | now rewrite IH]. Qed.

(** X10. The fallback stops at a member that is no image. When the
    first conventional path that the archive holds is not recognised
    by [Image.open], the error is not a [KeyError]: it ends the
    extraction with [None], and the conventional paths after it are
    not asked for. *)
Theorem fallback_stops_at_unreadable_member
  (fs : filesystem) (epub_path : Path) (epub_zip : archive) (opf_path err : string)
  (pre post : list string) (path : string) (data : entry) :
  fs !! str epub_path = Some (ZipArchive epub_zip) ->
  packaged epub_zip opf_path (Malformed err) ->
  common_paths = pre ++ path :: post ->
  forallb (absent epub_zip) pre = true ->
  epub_zip !! path = Some data ->
  picture data = None ->
  exists t : list event,
    extract_cover_from_epub fs epub_path = (t, Val None)
    /\ reads t = "META-INF/container.xml" :: opf_path :: pre ++ [path].
Proof.
  intros Hfs Hpack Hpaths Hpre Hdata Hpic.
  rewrite (extract_from_archive _ _ _ Hfs), (extract_malformed _ _ _ Hpack), Hpaths.
  rewrite (probe_skip _ _ _ Hpre), (probe_present _ _ _ _ Hdata), Hpic.
  cbv beta iota delta [bindM raise isinstance cls]. eexists. split; [reflexivity|].
  simpl. rewrite !reads_app, reads_map. simpl. now rewrite List.app_nil_r.
Qed.

Lemma fallback_stops_at_unreadable_member_witness :
  exists t : list event,
    extract_cover_from_epub
      (shelf (ZipArchive (malformed_epub [("cover.jpeg", text_entry);
                                            ("cover.png", image_entry jpeg)])))
      (parse "books/novel.epub") = (t, Val None)
    /\ reads t = ["META-INF/container.xml"; "OEBPS/content.opf"; "cover.jpg"; "cover.jpeg"].
Proof.
  exact (fallback_stops_at_unreadable_member
           (shelf (ZipArchive (malformed_epub [("cover.jpeg", text_entry);
                                                 ("cover.png", image_entry jpeg)])))
           (parse "books/novel.epub")
           (malformed_epub [("cover.jpeg", text_entry); ("cover.png", image_entry jpeg)])
           "OEBPS/content.opf" "mismatched tag: line 3, column 2"
           ["cover.jpg"] _ "cover.jpeg" text_entry
           eq_refl (malformed_packaged _) eq_refl eq_refl eq_refl eq_refl).
Defined.

(** X11. The cover is opened. When the resolver returns a path and
    the archive holds an image under that path, backslashes read as
    slashes, the image is returned after three reads: the container,
    the package file and the cover. *)
Theorem resolved_cover_is_opened
  (epub_zip : archive) (opf_path : string) (opf_content : document)
  (t : list event) (cover_path : string) (data : entry) (im : image) :
  packaged epub_zip opf_path opf_content ->
  find_cover_image_in_opf opf_content (parent (parse opf_path)) = (t, Val (Some cover_path)) ->
  epub_zip !! replace BS "/" cover_path = Some data ->
  picture data = Some im ->
  extract_cover_from_zip epub_zip
  = ([ZipRead "META-INF/container.xml"; ZipRead opf_path;
      ZipRead (replace BS "/" cover_path)],
     Val (Some im)).
Proof.
  intros Hpack Hfind Hdata Him.
  assert (Hp : cover_path <> EmptyString).
  { destruct (resolved_joined _ _ _ _ Hfind) as [href ->].
    apply str_nonempty, joinpath_wf, parent_wf, parse_wf. }
  destruct (resolver_trace _ _ _ _ Hfind) as [-> | [=]].
  rewrite (extract_packaged _ _ _ Hpack), Hfind.
  cbv beta iota delta [bindM]. now rewrite (open_cover_image _ _ _ _ Hp Hdata Him).
Qed.

Lemma resolved_cover_is_opened_witness :
  extract_cover_from_zip novel_epub
  = ([ZipRead "META-INF/container.xml"; ZipRead "OEBPS/content.opf";
      ZipRead "OEBPS/images/cover.jpg"],
     Val (Some jpeg)).
Proof.
  exact (resolved_cover_is_opened novel_epub "OEBPS/content.opf" (Parsed novel) []
           "OEBPS/images/cover.jpg" (image_entry jpeg) jpeg
           (novel_packaged _ _) eq_refl eq_refl eq_refl).
Defined.

(** X12. A cover that is no image. When the archive holds a member
    under the resolved path and [Image.open] does not recognise it,
    the extraction ends with [None] after the three reads; the
    conventional paths are not tried. *)
Theorem unreadable_cover_gives_none
  (fs : filesystem) (epub_path : Path) (epub_zip : archive)
  (opf_path : string) (opf_content : document)
  (t0 : list event) (cover_path : string) (data : entry) :
  fs !! str epub_path = Some (ZipArchive epub_zip) ->
  packaged epub_zip opf_path opf_content ->
  find_cover_image_in_opf opf_content (parent (parse opf_path)) = (t0, Val (Some cover_path)) ->
  epub_zip !! replace BS "/" cover_path = Some data ->
  picture data = None ->
  exists t : list event,
    extract_cover_from_epub fs epub_path = (t, Val None)
    /\ reads t = ["META-INF/container.xml"; opf_path; replace BS "/" cover_path].
Proof.
  intros Hfs Hpack Hfind Hdata Hpic.
  assert (Hp : cover_path <> EmptyString).
  { destruct (resolved_joined _ _ _ _ Hfind) as [href ->].
    apply str_nonempty, joinpath_wf, parent_wf, parse_wf. }
  destruct (resolver_trace _ _ _ _ Hfind) as [-> | [=]].
  rewrite (extract_from_archive _ _ _ Hfs), (extract_packaged _ _ _ Hpack), Hfind.
  cbv beta iota delta [bindM]. unfold open_cover. rewrite (truthy_nonempty _ Hp).
  unfold zip_read, Image_open. rewrite Hdata.
  cbv beta iota delta [bindM try_except]. rewrite Hpic.
  cbv beta iota delta [throw lift raise isinstance cls].
  eexists. split; reflexivity.
Qed.

Lemma unreadable_cover_gives_none_witness :
  exists t : list event,
    extract_cover_from_epub
      (shelf (ZipArchive (epub "OEBPS/content.opf" novel
                            [("OEBPS/images/cover.jpg", text_entry)])))
      (parse "books/novel.epub") = (t, Val None)
    /\ reads t = ["META-INF/container.xml"; "OEBPS/content.opf"; "OEBPS/images/cover.jpg"].
Proof.
  exact (unreadable_cover_gives_none
           (shelf (ZipArchive (epub "OEBPS/content.opf" novel
                                 [("OEBPS/images/cover.jpg", text_entry)])))
           (parse "books/novel.epub")
           (epub "OEBPS/content.opf" novel [("OEBPS/images/cover.jpg", text_entry)])
           "OEBPS/content.opf" (Parsed novel) [] "OEBPS/images/cover.jpg" text_entry
           eq_refl (novel_packaged _ _) eq_refl eq_refl eq_refl).
Defined.

(** X13. A container without [rootfile]. When the container document
    parses and holds no [rootfile] element of the container namespace,
    the extraction reports it and answers [None] after one read; the
    rest of the archive is not looked at. *)
Theorem container_without_rootfile
  (epub_zip : archive) (container_data : entry) (container_root : element) :
  epub_zip !! "META-INF/container.xml" = Some container_data ->
  decoded container_data = Some (Parsed container_root) ->
  (forall e, In e (descendants container_root) -> is_rootfile e = false) ->
  extract_cover_from_zip epub_zip
  = ([ZipRead "META-INF/container.xml";
      Print "Error: Could not find rootfile in container.xml"],
     Val None).
Proof.
  intros Hc Hd Hnone. unfold extract_cover_from_zip, zip_read, decode. rewrite Hc.
  cbv beta iota delta [bindM]. rewrite Hd.
  cbv beta iota delta [ret lift fromstring]. rewrite find_rootfile.
  rewrite <- head_filter, (filter_none _ _ Hnone). reflexivity.
Qed.

Lemma container_without_rootfile_witness :
  extract_cover_from_zip
    (list_to_map [("META-INF/container.xml", xml_entry empty_container);
                  ("cover.jpg", image_entry jpeg)])
  = ([ZipRead "META-INF/container.xml";
      Print "Error: Could not find rootfile in container.xml"],
     Val None).
Proof.
  apply (container_without_rootfile
           (list_to_map [("META-INF/container.xml", xml_entry empty_container);
                         ("cover.jpg", image_entry jpeg)])
           (xml_entry empty_container) empty_container);
    [reflexivity | reflexivity |].
  intros e He. vm_compute in He.
  repeat (destruct He as [<- | He]; [reflexivity|]). contradiction.
Defined.

(** X14. A [rootfile] without path. When the first [rootfile] element
    of the container has no [full-path] attribute, or an empty one, the
    extraction reports it and answers [None] after one read. *)
Theorem rootfile_without_full_path
  (epub_zip : archive) (container_data : entry) (container_root rootfile : element) :
  epub_zip !! "META-INF/container.xml" = Some container_data ->
  decoded container_data = Some (Parsed container_root) ->
  List.find is_rootfile (descendants container_root) = Some rootfile ->
  get rootfile "full-path" = None \/ get rootfile "full-path" = Some EmptyString ->
  extract_cover_from_zip epub_zip
  = ([ZipRead "META-INF/container.xml";
      Print "Error: OPF path not found in container.xml"],
     Val None).
Proof.
  intros Hc Hd Hrf Hpath. unfold extract_cover_from_zip, zip_read, decode. rewrite Hc.
  cbv beta iota delta [bindM]. rewrite Hd.
  cbv beta iota delta [ret lift fromstring]. rewrite find_rootfile, Hrf.
  destruct Hpath as [-> | ->]; reflexivity.
Qed.

Lemma rootfile_without_full_path_witness :
  extract_cover_from_zip
    (list_to_map [("META-INF/container.xml", xml_entry pathless_container)])
  = ([ZipRead "META-INF/container.xml";
      Print "Error: OPF path not found in container.xml"],
     Val None).
Proof.
  exact (rootfile_without_full_path
           (list_to_map [("META-INF/container.xml", xml_entry pathless_container)])
           (xml_entry pathless_container) pathless_container
           (Element "{urn:oasis:names:tc:opendocument:xmlns:container}rootfile"
              [("media-type", "application/oebps-package+xml")] [])
           eq_refl eq_refl eq_refl (or_introl eq_refl)).
Defined.

(** X15. Missing members. An archive without [META-INF/container.xml]
    gives [None] after that one read; an archive whose container names
    a package file that it does not hold gives [None] after two reads.
    In both cases the [KeyError] is caught, and no conventional path is
    tried. *)
Theorem missing_member_gives_none
  (fs : filesystem) (epub_path : Path) (epub_zip : archive) :
  fs !! str epub_path = Some (ZipArchive epub_zip) ->
  (epub_zip !! "META-INF/container.xml" = None ->
   exists t, extract_cover_from_epub fs epub_path = (t, Val None)
             /\ reads t = ["META-INF/container.xml"])
  /\ (forall (container_data : entry) (container_root rootfile : element)
             (opf_path : string),
        epub_zip !! "META-INF/container.xml" = Some container_data ->
        decoded container_data = Some (Parsed container_root) ->
        List.find is_rootfile (descendants container_root) = Some rootfile ->
        truthy (get rootfile "full-path") = Some opf_path ->
        epub_zip !! opf_path = None ->
        exists t, extract_cover_from_epub fs epub_path = (t, Val None)
                  /\ reads t = ["META-INF/container.xml"; opf_path]).
Proof.
  intros Hfs. rewrite (extract_from_archive _ _ _ Hfs). split.
  - intros Hc. unfold extract_cover_from_zip, zip_read. rewrite Hc.
    cbv beta iota delta [bindM raise isinstance cls]. eexists. split; reflexivity.
  - intros cd cr rf opf_path Hc Hd Hrf Hop Ho.
    unfold extract_cover_from_zip, zip_read, decode. rewrite Hc.
    cbv beta iota delta [bindM]. rewrite Hd.
    cbv beta iota delta [ret lift fromstring]. rewrite find_rootfile, Hrf, Hop, Ho.
    cbv beta iota delta [raise isinstance cls]. eexists. split; reflexivity.
Qed.

Lemma missing_member_gives_none_witness :
  exists t,
    extract_cover_from_epub
      (shelf (ZipArchive (list_to_map [("cover.jpg", image_entry jpeg)])))
      (parse "books/novel.epub") = (t, Val None)
    /\ reads t = ["META-INF/container.xml"].
Proof.
  exact (proj1 (missing_member_gives_none
                  (shelf (ZipArchive (list_to_map [("cover.jpg", image_entry jpeg)])))
                  (parse "books/novel.epub")
                  (list_to_map [("cover.jpg", image_entry jpeg)]) eq_refl)
           eq_refl).
Defined.

Lemma ends_with_error_app (a b : list event) :
  ends_with_error b -> ends_with_error (a ++ b).
Proof.
  intros (t' & line & -> & H). exists (a ++ t'), line.
  split; [now rewrite List.app_assoc | exact H].
Qed.

Lemma ends_with_error_snoc (a : list event) (line : string) :
  startswith "Error" line = true -> ends_with_error (a ++ [Print line]).
Proof. intros H. now exists a, line. Qed.

Lemma open_cover_none (epub_zip : archive) (cover_path : option string) (t : list event) :
  open_cover epub_zip cover_path = (t, Val None) -> ends_with_error t.
Proof.
  unfold open_cover. destruct (truthy cover_path) as [p|].
  - unfold zip_read, Image_open.
    destruct (epub_zip !! replace BS "/" p) as [data|];
      cbv beta iota delta [bindM try_except].
    + destruct (picture data); discriminate.
    + cbv beta iota delta [raise isinstance cls print ret bindM].
      intros [= <-]. apply (ends_with_error_snoc [ZipRead (replace BS "/" p)]). reflexivity.
  - cbv beta iota delta [bindM print].
    destruct (probe epub_zip common_paths) as [tp [[im|]|e|]];
      cbv beta iota delta [bindM print ret]; try discriminate.
    intros [= <-].
    apply (ends_with_error_snoc
             (Print "Warning: Could not find cover image in OPF manifest, trying common locations..."
                :: tp)).
    reflexivity.
Qed.

Lemma extract_cover_from_zip_none (epub_zip : archive) (t : list event) :
  extract_cover_from_zip epub_zip = (t, Val None) -> ends_with_error t.
Proof.
  unfold extract_cover_from_zip, zip_read, decode.
  destruct (epub_zip !! "META-INF/container.xml") as [cd|];
    cbv beta iota delta [bindM]; [|discriminate].
  destruct (decoded cd) as [[err|cr]|];
    cbv beta iota delta [ret lift throw raise fromstring]; try discriminate.
  rewrite find_rootfile.
  destruct (List.find is_rootfile (descendants cr)) as [rf|].
  - destruct (truthy (get rf "full-path")) as [opf_path|].
    + destruct (epub_zip !! opf_path) as [od|]; cbv beta iota; [|discriminate].
      destruct (decoded od) as [doc|]; cbv beta iota; [|discriminate].
      destruct (find_cover_image_in_opf doc (parent (parse opf_path))) as [t1 [cp|e|]];
        try discriminate.
      destruct (open_cover epub_zip cp) as [t2 r2] eqn:Hopen.
      intros [= <- ->].
      apply (ends_with_error_app
               (ZipRead "META-INF/container.xml" :: ZipRead opf_path :: t1) t2).
      eapply open_cover_none, Hopen.
    + intros [= <-]. apply (ends_with_error_snoc [ZipRead "META-INF/container.xml"]).
      reflexivity.
  - intros [= <-]. apply (ends_with_error_snoc [ZipRead "META-INF/container.xml"]).
    reflexivity.
Qed.

(** X16. [extract_cover_from_epub] never raises: whatever the file
    system and the archive hold, every exception is turned into the
    answer [None]; and whenever it answers [None], the last thing it
    did was to print a line that starts with [Error]. *)
Theorem extraction_reports_every_failure
  (fs : filesystem) (epub_path : Path) (t : list event) (r : result (option image)) :
  extract_cover_from_epub fs epub_path = (t, r) ->
  (forall e, r <> Raise e) /\ (r = Val None -> ends_with_error t).
Proof.
  assert (Hhandled : forall line : string,
             startswith "Error" line = true ->
             ([Print line], @Val (option image) None) = (t, r) ->
             (forall e, r <> Raise e) /\ (r = Val None -> ends_with_error t)).
  { intros line Hline H. inversion H. subst. split; [intros e; discriminate|].
    intros _. now apply (ends_with_error_snoc [] line). }
  unfold extract_cover_from_epub, ZipFile.
  destruct (fs !! str epub_path) as [[|z|fmt im|]|].
  - apply Hhandled. reflexivity.
  - cbv beta iota delta [bindM lift].
    destruct (extract_cover_from_zip z) as [tz [v|e|]] eqn:Hz.
    + rewrite List.app_nil_l. intros H. inversion H. subst.
      split; [intros e; discriminate|]. intros [= ->].
      eapply extract_cover_from_zip_none, Hz.
    + rewrite List.app_nil_l. unfold try_except, try_except_Exception.
      destruct (isinstance e BadZipFile);
        cbv beta iota delta [bindM print ret]; intros H; inversion H; subst;
        (split; [intros e'; discriminate|]); intros _;
        rewrite ?List.app_nil_r; apply ends_with_error_snoc; reflexivity.
    + intros H. inversion H. subst. split; [intros e; discriminate | discriminate].
  - apply Hhandled. reflexivity.
  - apply Hhandled. reflexivity.
  - apply Hhandled. reflexivity.
Qed.

Lemma extraction_reports_every_failure_witness :
  (forall e, @Val (option image) None <> Raise e)
  /\ (@Val (option image) None = Val None ->
      ends_with_error [Print "Error: books/novel.epub is not a valid EPUB/ZIP file"]).
Proof.
  exact (extraction_reports_every_failure (shelf OtherFile) (parse "books/novel.epub")
           [Print "Error: books/novel.epub is not a valid EPUB/ZIP file"] (Val None)
           eq_refl).
Defined.

End more_extraction.

(** ** A run *)

Section more_runs.
Import PyStr ET Py ElementPath Pathlib World Script Manifest Samples.
Import Observations MoreSamples.
Variable thumbnail_size : Z * Z -> Z * Z -> Z * Z.

(** X17. Inputs that are turned away. A run whose arguments are not
    exactly one path, or whose path does not exist, or whose path has
    an extension other than [.epub] in any letter case, prints one line
    and exits with code 1; it opens no archive and leaves the file
    system as it is. *)
Theorem rejected_input_exits_1 (argv : list string) (fs : filesystem) :
  accepted argv fs = false ->
  exists line : string, main thumbnail_size argv fs = ([Print line], fs, sys_exit 1).
Proof.
  unfold accepted, main.
  destruct argv as [|prog [|arg [|extra argv]]]; try (intros _; eexists; reflexivity).
  destruct (exists_ fs (parse arg)); cbn [andb negb]; [|intros _; eexists; reflexivity].
  intros ->. cbn [negb]. eexists. reflexivity.
Qed.

(** X18. A failed run changes nothing. Whenever a run exits with code
    1, the file system is the one it started in: every [sys.exit(1)]
    comes before the directory [thumb] is made, so no directory has
    been made and no file written. *)
Theorem failed_run_changes_nothing
  (argv : list string) (fs fs' : filesystem) (t : list event) :
  main thumbnail_size argv fs = (t, fs', sys_exit 1) ->
  fs' = fs.
Proof.
  unfold main.
  destruct argv as [|prog [|arg [|extra argv]]]; try (intros H; now inversion H).
  destruct (exists_ fs (parse arg)); cbn [negb]; [|intros H; now inversion H].
  destruct (lower (suffix (parse arg)) =? ".epub")%string; cbn [negb];
    [|intros H; now inversion H].
  destruct (extract_cover_from_epub fs (parse arg)) as [t0 [[im|]|e|]];
    try (intros H; now inversion H).
  destruct (mkdir_exist_ok fs (parent (parse arg) </> "thumb")) as [fs1|e|];
    try (intros H; now inversion H).
  destruct (exists_ fs1 _); discriminate.
Qed.

(** X19. What a run may touch. A run changes the file system at two
    paths at most, the directory [thumb] beside the input and the
    thumbnail in it; the input itself is not among them: whatever the
    run does, the file at the path given is afterwards what it was. *)
Theorem run_touches_only_the_thumbnail
  (prog arg : string) (fs fs' : filesystem) (t : list event) (st : status) :
  main thumbnail_size [prog; arg] fs = (t, fs', st) ->
  fs' !! str (parse arg) = fs !! str (parse arg)
  /\ forall k : string,
       k <> str (parent (parse arg) </> "thumb") ->
       k <> str (thumbnail_path (parse arg)) ->
       fs' !! k = fs !! k.
Proof.
  unfold main, thumbnail_path.
  destruct (exists_ fs (parse arg)) eqn:Hex; cbn [negb];
    [|intros H; inversion H; now subst].
  destruct (lower (suffix (parse arg)) =? ".epub")%string; cbn [negb];
    [|intros H; inversion H; now subst].
  destruct (extract_cover_from_epub fs (parse arg)) as [t0 [[im|]|e|]];
    try (intros H; inversion H; now subst).
  destruct (mkdir_exist_ok fs (parent (parse arg) </> "thumb")) as [fs1|e|] eqn:Hmk;
    try (intros H; inversion H; now subst).
  unfold exists_ in Hex.
  destruct (fs !! str (parse arg)) as [f|] eqn:Hf; [|discriminate].
  pose proof (mkdir_exist_ok_keeps _ _ _ _ _ Hmk Hf) as Hf1.
  destruct (exists_ fs1 (parent (parse arg) </> "thumb" </> (name (parse arg) +:+ ".png")))
    eqn:Hth; intros H; inversion H; subst; clear H.
  - split; [exact Hf1|]. intros k Hk _. eapply mkdir_exist_ok_other; eauto.
  - unfold exists_ in Hth. split.
    + rewrite lookup_insert_ne; [exact Hf1|]. intros E. rewrite E, Hf1 in Hth. discriminate.
    + intros k Hk Hk'. rewrite lookup_insert_ne by congruence.
      eapply mkdir_exist_ok_other; eauto.
Qed.

(** X20. What a good run leaves. When a run comes to its end without
    [sys.exit], a cover image has been extracted, no thumbnail was in
    place before, the directory [thumb] is there, and the file
    [<thumb>/<name of the input>.png], the extension [.epub] kept in
    the name, holds a PNG whose size is the one Pillow computes from
    the size of the cover and the box 122 by 150. *)
Theorem good_run_saves_the_thumbnail
  (prog arg : string) (fs fs' : filesystem) (t : list event) :
  main thumbnail_size [prog; arg] fs = (t, fs', returned) ->
  exists (t0 : list event) (cover saved : image),
    extract_cover_from_epub fs (parse arg) = (t0, Val (Some cover))
    /\ fs !! str (thumbnail_path (parse arg)) = None
    /\ fs' !! str (parent (parse arg) </> "thumb") = Some Dir
    /\ str (thumbnail_path (parse arg))
       = str (parent (parse arg) </> "thumb") +:+ String "/" (name (parse arg) +:+ ".png")
    /\ fs' !! str (thumbnail_path (parse arg)) = Some (ImageFile "PNG" saved)
    /\ (width saved, height saved)
       = thumbnail_size (width cover, height cover) (122, 150)%Z.
Proof.
  unfold main, thumbnail_path.
  destruct (exists_ fs (parse arg)) eqn:Hex; cbn [negb]; [|discriminate].
  destruct (lower (suffix (parse arg)) =? ".epub")%string; cbn [negb]; [|discriminate].
  destruct (extract_cover_from_epub fs (parse arg)) as [t0 [[im|]|e|]]; try discriminate.
  destruct (mkdir_exist_ok fs (parent (parse arg) </> "thumb")) as [fs1|e|] eqn:Hmk;
    try discriminate.
  destruct (exists_ fs1 (parent (parse arg) </> "thumb" </> (name (parse arg) +:+ ".png")))
    eqn:Hth; [discriminate|].
  intros H. inversion H. subst. clear H.
  unfold exists_ in Hth.
  exists t0, im. eexists. split; [reflexivity|]. repeat split.
  - rewrite <- (mkdir_exist_ok_other _ _ _ _ Hmk).
    + destruct (fs1 !! _); [discriminate | reflexivity].
    + intros E. symmetry in E. now apply thumbnail_not_thumb_dir in E.
  - rewrite lookup_insert_ne by (symmetry; apply thumbnail_not_thumb_dir).
    eapply mkdir_exist_ok_dir, Hmk.
  - apply str_thumbnail_path.
  - apply lookup_insert_eq.
  - unfold thumbnail.
    destruct (negb ((mode im =? "RGB")%string || (mode im =? "RGBA")%string));
      cbn [convert width height];
      destruct (thumbnail_size (width im, height im) (122, 150)%Z); reflexivity.
Qed.

(** X21. Something in the way of the directory. When a cover image
    has been extracted and the path of the directory [thumb] is taken
    by something that is no directory, [mkdir(exist_ok=True)] raises
    [FileExistsError]; nothing in [main] catches it, so the run ends in
    that exception, with nothing written. *)
Theorem thumb_in_the_way
  (prog arg : string) (fs : filesystem) (t0 : list event) (cover : image) (f : node) :
  exists_ fs (parse arg) = true ->
  lower (suffix (parse arg)) = ".epub" ->
  extract_cover_from_epub fs (parse arg) = (t0, Val (Some cover)) ->
  fs !! str (parent (parse arg) </> "thumb") = Some f ->
  f <> Dir ->
  main thumbnail_size [prog; arg] fs
  = (Print ("Processing: " +:+ str (parse arg)) :: t0, fs,
     uncaught (Exn FileExistsError (str (parent (parse arg) </> "thumb")))).
Proof.
  intros Hex Hsuf Hext Hf Hdir. unfold main.
  rewrite Hex, Hsuf, Hext. cbn [negb]. unfold mkdir_exist_ok. rewrite Hf.
  destruct f; try reflexivity. congruence.
Qed.

(** X22. A directory for an input. When the path given exists, ends
    in [.epub] and is a directory, opening it as an archive fails with
    an error that the extraction catches: the run prints the failure
    and exits with code 1, the file system unchanged. *)
Theorem directory_input_exits_1 (prog arg : string) (fs : filesystem) :
  fs !! str (parse arg) = Some Dir ->
  lower (suffix (parse arg)) = ".epub" ->
  exists line : string,
    main thumbnail_size [prog; arg] fs
    = ([Print ("Processing: " +:+ str (parse arg));
        Print ("Error extracting cover: " +:+ line);
        Print "Failed to extract cover image"],
       fs, sys_exit 1).
Proof.
  intros Hf Hsuf. eexists.
  rewrite (main_no_cover thumbnail_size prog arg fs
             [Print ("Error extracting cover: " +:+ str (parse arg))]);
    [reflexivity | eapply exists_lookup, Hf | exact Hsuf |].
  unfold extract_cover_from_epub, ZipFile. now rewrite Hf.
Qed.

End more_runs.

Section more_run_witnesses.
Import PyStr ET Py ElementPath Pathlib World Script Manifest Samples.
Import Observations MoreSamples.

(** A file that is there, under a name that does not end in [.epub]. *)
Lemma rejected_input_exits_1_witness :
  exists line : string,
    main fill_box ["extract_epub_thumbnail.py"; "books"] (shelf OtherFile)
    = ([Print line], shelf OtherFile, sys_exit 1).
Proof.
  exact (rejected_input_exits_1 fill_box ["extract_epub_thumbnail.py"; "books"]
           (shelf OtherFile) eq_refl).
Defined.

Lemma failed_run_changes_nothing_witness :
  shelf (ZipArchive broken_epub) = shelf (ZipArchive broken_epub).
Proof.
  exact (failed_run_changes_nothing fill_box argv
           (shelf (ZipArchive broken_epub)) (shelf (ZipArchive broken_epub))
           [Print "Processing: books/novel.epub";
            ZipRead "META-INF/container.xml";
            ZipRead "OEBPS/content.opf";
            ZipRead "OEBPS/images/cover.jpg";
            Print "Error: Cover image not found at path: OEBPS/images/cover.jpg";
            Print "Failed to extract cover image"]
           eq_refl).
Defined.

Lemma novel_run :
  main fill_box argv (shelf (ZipArchive novel_epub))
  = ([Print "Processing: books/novel.epub";
      ZipRead "META-INF/container.xml";
      ZipRead "OEBPS/content.opf";
      ZipRead "OEBPS/images/cover.jpg";
      Print "Thumbnail saved to: books/thumb/novel.epub.png";
      Print "Image size: 122x150"],
     <["books/thumb/novel.epub.png" := ImageFile "PNG" (mkImage "RGB" 122 150)]>
       (<["books/thumb" := Dir]> (shelf (ZipArchive novel_epub))),
     returned).
Proof. reflexivity. Qed.

Lemma run_touches_only_the_thumbnail_witness :
  (<["books/thumb/novel.epub.png" := ImageFile "PNG" (mkImage "RGB" 122 150)]>
     (<["books/thumb" := Dir]> (shelf (ZipArchive novel_epub))) : filesystem)
    !! "books/novel.epub"
  = Some (ZipArchive novel_epub).
Proof.
  exact (proj1 (run_touches_only_the_thumbnail fill_box
                  "extract_epub_thumbnail.py" "books/novel.epub"
                  (shelf (ZipArchive novel_epub)) _ _ _ novel_run)).
Defined.

Lemma good_run_saves_the_thumbnail_witness :
  exists (t0 : list event) (cover saved : image),
    extract_cover_from_epub (shelf (ZipArchive novel_epub)) (parse "books/novel.epub")
    = (t0, Val (Some cover))
    /\ shelf (ZipArchive novel_epub) !! "books/thumb/novel.epub.png" = None
    /\ (<["books/thumb/novel.epub.png" := ImageFile "PNG" (mkImage "RGB" 122 150)]>
          (<["books/thumb" := Dir]> (shelf (ZipArchive novel_epub))) : filesystem)
         !! "books/thumb" = Some Dir
    /\ "books/thumb/novel.epub.png" = "books/thumb/novel.epub.png"
    /\ (<["books/thumb/novel.epub.png" := ImageFile "PNG" (mkImage "RGB" 122 150)]>
          (<["books/thumb" := Dir]> (shelf (ZipArchive novel_epub))) : filesystem)
         !! "books/thumb/novel.epub.png" = Some (ImageFile "PNG" saved)
    /\ (width saved, height saved) = fill_box (width cover, height cover) (122, 150)%Z.
Proof.
  exact (good_run_saves_the_thumbnail fill_box
           "extract_epub_thumbnail.py" "books/novel.epub"
           (shelf (ZipArchive novel_epub)) _ _ novel_run).
Defined.

(** A file named [thumb] lies beside the book. *)
Lemma thumb_in_the_way_witness :
  main fill_box argv (<["books/thumb" := OtherFile]> (shelf (ZipArchive novel_epub)))
  = ([Print "Processing: books/novel.epub";
      ZipRead "META-INF/container.xml";
      ZipRead "OEBPS/content.opf";
      ZipRead "OEBPS/images/cover.jpg"],
     <["books/thumb" := OtherFile]> (shelf (ZipArchive novel_epub)),
     uncaught (Exn FileExistsError "books/thumb")).
Proof.
  apply (thumb_in_the_way fill_box
           "extract_epub_thumbnail.py" "books/novel.epub"
           (<["books/thumb" := OtherFile]> (shelf (ZipArchive novel_epub)))
           [ZipRead "META-INF/container.xml"; ZipRead "OEBPS/content.opf";
            ZipRead "OEBPS/images/cover.jpg"] jpeg OtherFile);
    [reflexivity | reflexivity | reflexivity | reflexivity | discriminate].
Defined.

Lemma directory_input_exits_1_witness :
  exists line : string,
    main fill_box argv (shelf Dir)
    = ([Print "Processing: books/novel.epub";
        Print ("Error extracting cover: " +:+ line);
        Print "Failed to extract cover image"],
       shelf Dir, sys_exit 1).
Proof.
  exact (directory_input_exits_1 fill_box
           "extract_epub_thumbnail.py" "books/novel.epub" (shelf Dir) eq_refl eq_refl).
Defined.

End more_run_witnesses.

